(** * nerfstudio/models/gaussian_splatting.py: the Gaussian-splatting model

    A shallow embedding of [GaussianSplatting] (constructor, camera
    conversion, rasterizer front end and output assembly) together with
    the properties its specification states about them.

    Tensors hold IEEE-754 binary32 values, modelled by the executable
    [SpecFloat] specification at precision 24; Python exceptions are an
    explicit error result. *)

From Stdlib Require Import String Ascii ZArith Bool Lia Arith List.
From Stdlib Require DecimalString DecimalN DecimalZ.
From Stdlib Require Import Floats.SpecFloat.
From Stdlib Require Import Reals Lra.
Import ListNotations.
Open Scope string_scope.
Open Scope list_scope.

(** ** Python exceptions and the error result *)

Inductive Exception : Type :=
| RuntimeError          (* torch: shape mismatch, empty reduction, ... *)
| IndexError            (* torch: dimension out of range *)
| LinAlgError           (* numpy.linalg: singular or non-square matrix *)
| AttributeError        (* attribute read before it was assigned *)
| DegenerateCameraError (* named by the specification only *)
| ExternalError (name : string). (* raised inside a collaborator *)

Inductive result (A : Type) : Type :=
| Ok (a : A)
| Raise (e : Exception).

Arguments Ok {A} a.
Arguments Raise {A} e.

Definition bind {A B : Type} (r : result A) (k : A -> result B) : result B :=
  match r with
  | Ok a => k a
  | Raise e => Raise e
  end.

Declare Scope py_scope.
Delimit Scope py_scope with py.
Notation "x <- e ;; k" := (bind e (fun x => k))
  (at level 61, e at next level, right associativity) : py_scope.
Notation "' p <- e ;; k" := (bind e (fun x => let p := x in k))
  (at level 61, p pattern, e at next level, right associativity) : py_scope.
Open Scope py_scope.

(** ** binary32 scalars *)

Module F32.

Definition prec : Z := 24.
Definition emax : Z := 128.

Definition t : Type := spec_float.

Definition add : t -> t -> t := SFadd prec emax.
Definition sub : t -> t -> t := SFsub prec emax.
Definition mul : t -> t -> t := SFmul prec emax.
Definition div : t -> t -> t := SFdiv prec emax.
Definition sqrt : t -> t := SFsqrt prec emax.
Definition ltb : t -> t -> bool := SFltb.
Definition abs : t -> t := SFabs.

Definition of_Z (z : Z) : t := binary_normalize prec emax z 0 false.

Definition zero : t := S754_zero false.
Definition one : t := Eval vm_compute in of_Z 1.
Definition minus_one : t := Eval vm_compute in of_Z (-1).
(** the literal [0.5] *)
Definition half : t := Eval vm_compute in div (of_Z 1) (of_Z 2).

Definition is_nan (x : t) : bool :=
  match x with S754_nan => true | _ => false end.

Definition is_zero (x : t) : bool :=
  match x with S754_zero _ => true | _ => false end.

Definition is_finite (x : t) : bool :=
  match x with S754_zero _ | S754_finite _ _ _ => true | _ => false end.

(** [torch.max] and [torch.clamp] propagate NaN. *)
Definition max (a b : t) : t :=
  if is_nan a then a else if is_nan b then b
  else if ltb a b then b else a.

Definition min (a b : t) : t :=
  if is_nan a then a else if is_nan b then b
  else if ltb b a then b else a.

Definition clamp (lo hi x : t) : t := min (max x lo) hi.
Definition clamp_min (lo x : t) : t := max x lo.

End F32.

Arguments F32.add : simpl never.
Arguments F32.sub : simpl never.
Arguments F32.mul : simpl never.
Arguments F32.div : simpl never.
Arguments F32.sqrt : simpl never.
Arguments F32.of_Z : simpl never.
Arguments F32.max : simpl never.
Arguments F32.min : simpl never.
Arguments F32.clamp : simpl never.
Arguments F32.clamp_min : simpl never.

Definition f32 : Type := F32.t.

(** ** Tensors

    A tensor is its shape and its element at every multi-index, the view
    [torch] itself takes of a strided tensor: [permute], [squeeze] and the
    like only re-index.  Elements outside the shape are never read.
    Where the layout in memory decides, as for [view], the strides are
    carried beside the tensor. *)

Record Tensor : Type := mkTensor {
  shape : list nat;
  item : list nat -> f32
}.

(** [idx] addresses an element of a tensor of shape [s]. *)
Definition in_range (s idx : list nat) : Prop := Forall2 lt idx s.

Fixpoint indices (s : list nat) : list (list nat) :=
  match s with
  | [] => [[]]
  | d :: s' => flat_map (fun i => map (cons i) (indices s')) (seq 0 d)
  end.

Definition scalar (x : f32) : Tensor := mkTensor [] (fun _ => x).

Definition tensor_map (f : f32 -> f32) (t : Tensor) : Tensor :=
  mkTensor (shape t) (fun idx => f (item t idx)).

(** A matrix literal, row by row. *)
Definition of_rows (rows : list (list f32)) : Tensor :=
  mkTensor [length rows; length (hd [] rows)]
    (fun idx => nth (nth 1 idx 0%nat) (nth (nth 0 idx 0%nat) rows []) F32.zero).

Definition to_rows (t : Tensor) : list (list f32) :=
  map (fun i => map (fun j => item t [i; j]) (seq 0 (nth 1 (shape t) 0%nat)))
      (seq 0 (nth 0 (shape t) 0%nat)).

(** *** Re-indexing operations *)

Fixpoint index_of (j : nat) (dims : list nat) : nat :=
  match dims with
  | [] => 0
  | d :: dims' => if Nat.eqb d j then 0 else S (index_of j dims')
  end.

Definition is_permutation (n : nat) (dims : list nat) : bool :=
  Nat.eqb (length dims) n
  && forallb (fun j => existsb (Nat.eqb j) dims) (seq 0 n).

(** [t.permute(dims)]: dimension [k] of the result is dimension
    [dims[k]] of [t]. *)
Definition permute (dims : list nat) (t : Tensor) : result Tensor :=
  let n := length (shape t) in
  if is_permutation n dims then
    Ok (mkTensor (map (fun d => nth d (shape t) 0%nat) dims)
          (fun idx => item t (map (fun j => nth (index_of j dims) idx 0%nat)
                                  (seq 0 n))))
  else Raise RuntimeError.

(** [t.transpose(d0, d1)] *)
Definition transpose (d0 d1 : nat) (t : Tensor) : result Tensor :=
  let n := length (shape t) in
  if Nat.ltb d0 n && Nat.ltb d1 n then
    permute (map (fun j => if Nat.eqb j d0 then d1
                           else if Nat.eqb j d1 then d0 else j) (seq 0 n)) t
  else Raise IndexError.

(** [torch.unsqueeze(t, dim=0)] *)
Definition unsqueeze0 (t : Tensor) : Tensor :=
  mkTensor (1%nat :: shape t) (fun idx => item t (tl idx)).

Fixpoint squeeze_index (s idx : list nat) : list nat :=
  match s with
  | [] => []
  | d :: s' =>
      if Nat.eqb d 1 then 0%nat :: squeeze_index s' idx
      else hd 0%nat idx :: squeeze_index s' (tl idx)
  end.

(** [t.squeeze()]: every dimension of size 1 is dropped. *)
Definition squeeze (t : Tensor) : Tensor :=
  mkTensor (filter (fun d => negb (Nat.eqb d 1)) (shape t))
    (fun idx => item t (squeeze_index (shape t) idx)).

(** *** Broadcasting element-wise operations *)

Fixpoint broadcast_rev (r1 r2 : list nat) : option (list nat) :=
  match r1, r2 with
  | [], r => Some r
  | r, [] => Some r
  | a :: r1', b :: r2' =>
      match broadcast_rev r1' r2' with
      | None => None
      | Some r =>
          if Nat.eqb a b then Some (a :: r)
          else if Nat.eqb a 1 then Some (b :: r)
          else if Nat.eqb b 1 then Some (a :: r)
          else None
      end
  end.

(** Shapes are aligned at their last dimension. *)
Definition broadcast_shapes (s1 s2 : list nat) : option (list nat) :=
  option_map (@rev nat) (broadcast_rev (rev s1) (rev s2)).

Fixpoint broadcast_zip (s idx : list nat) : list nat :=
  match s, idx with
  | d :: s', i :: idx' =>
      (if Nat.eqb d 1 then 0%nat else i) :: broadcast_zip s' idx'
  | _, _ => []
  end.

(** The index into an operand of shape [s] for the result index [idx]. *)
Definition broadcast_index (s idx : list nat) : list nat :=
  broadcast_zip s (skipn (length idx - length s) idx).

Definition tensor_binop (op : f32 -> f32 -> f32) (a b : Tensor)
  : result Tensor :=
  match broadcast_shapes (shape a) (shape b) with
  | None => Raise RuntimeError
  | Some s =>
      Ok (mkTensor s (fun idx =>
            op (item a (broadcast_index (shape a) idx))
               (item b (broadcast_index (shape b) idx))))
  end.

Definition tensor_add := tensor_binop F32.add.
Definition tensor_sub := tensor_binop F32.sub.
Definition tensor_div := tensor_binop F32.div.

(** [torch.clamp(t, lo, hi)] and [torch.clamp_min(t, lo)] *)
Definition torch_clamp (t : Tensor) (lo hi : f32) : Tensor :=
  tensor_map (F32.clamp lo hi) t.
Definition torch_clamp_min (t : Tensor) (lo : f32) : Tensor :=
  tensor_map (F32.clamp_min lo) t.

(** [torch.max(t)]: the maximum of all elements, a 0-dimensional tensor;
    an empty tensor has none. *)
Definition torch_max (t : Tensor) : result Tensor :=
  match indices (shape t) with
  | [] => Raise RuntimeError
  | i0 :: rest =>
      Ok (scalar (fold_left (fun acc i => F32.max acc (item t i)) rest
                            (item t i0)))
  end.

(** *** Construction, concatenation, slices *)

Definition of_list (xs : list f32) : Tensor :=
  mkTensor [length xs] (fun idx => nth (nth 0 idx 0%nat) xs F32.zero).

Fixpoint list_eqb (s1 s2 : list nat) : bool :=
  match s1, s2 with
  | [], [] => true
  | a :: r1, b :: r2 => Nat.eqb a b && list_eqb r1 r2
  | _, _ => false
  end.

(** [torch.concatenate([a, b], dim=0)]: all sizes but the first agree
    (a tensor of shape [(0,)] is skipped, as torch does). *)
Definition torch_concatenate0 (a b : Tensor) : result Tensor :=
  match shape a, shape b with
  | [0%nat], _ :: _ => Ok b
  | _ :: _, [0%nat] => Ok a
  | n1 :: r1, n2 :: r2 =>
      if list_eqb r1 r2 then
        Ok (mkTensor ((n1 + n2)%nat :: r1)
              (fun idx =>
                 let i := hd 0%nat idx in
                 if Nat.ltb i n1 then item a idx
                 else item b ((i - n1)%nat :: tl idx)))
      else Raise RuntimeError
  | _, _ => Raise RuntimeError
  end.

(** [t[r0:r1, c0:c1] *= k], in place on the first two dimensions. *)
Definition imul_block (r0 r1 c0 c1 : nat) (k : f32) (t : Tensor)
  : result Tensor :=
  if Nat.ltb (length (shape t)) 2 then Raise IndexError
  else
    Ok (mkTensor (shape t)
          (fun idx =>
             let i := nth 0 idx 0%nat in
             let j := nth 1 idx 0%nat in
             if Nat.leb r0 i && Nat.ltb i r1 && Nat.leb c0 j && Nat.ltb j c1
             then F32.mul (item t idx) k
             else item t idx)).

(** [a[:r, :c]] of a matrix *)
Definition slice_block (r c : nat) (a : Tensor) : Tensor :=
  mkTensor [Nat.min r (nth 0 (shape a) 0%nat); Nat.min c (nth 1 (shape a) 0%nat)]
           (item a).

(** [a[:r, j]] of a matrix *)
Definition slice_column (r j : nat) (a : Tensor) : result Tensor :=
  if Nat.ltb j (nth 1 (shape a) 0%nat) then
    Ok (mkTensor [Nat.min r (nth 0 (shape a) 0%nat)]
          (fun idx => item a [nth 0 idx 0%nat; j]))
  else Raise IndexError.

(** [np.transpose(a)] reverses the axes. *)
Definition np_transpose (a : Tensor) : Tensor :=
  mkTensor (rev (shape a)) (fun idx => item a (rev idx)).

(** *** Reductions of matrices

    Sums are accumulated from left to right, starting at zero; the
    libraries fix the result only up to the order of the additions. *)

Definition sum_f32 (xs : list f32) : f32 := fold_left F32.add xs F32.zero.

(** [torch.matmul(a, b)] of two matrices (the only ranks used here; the
    batched forms are reported as a shape error). *)
Definition torch_matmul (a b : Tensor) : result Tensor :=
  match shape a, shape b with
  | [n; k], [k'; m] =>
      if Nat.eqb k k' then
        Ok (mkTensor [n; m]
              (fun idx =>
                 let i := nth 0 idx 0%nat in
                 let j := nth 1 idx 0%nat in
                 sum_f32 (map (fun l => F32.mul (item a [i; l]) (item b [l; j]))
                              (seq 0 k))))
      else Raise RuntimeError
  | _, _ => Raise RuntimeError
  end.

Definition set_nth (k : nat) (x : nat) (idx : list nat) : list nat :=
  firstn k idx ++ x :: skipn (S k) idx.

(** [t.norm(dim=1, keepdim=True)]: the 2-norm of every slice along
    dimension 1.  In which order and precision the squares are
    accumulated, and so the last bit of the result, is left to the
    reduction kernel of the library: [norm] is that reduction on one
    slice. *)
Definition norm_dim1_keepdim (norm : list f32 -> f32) (t : Tensor)
  : result Tensor :=
  match shape t with
  | d0 :: d1 :: rest =>
      Ok (mkTensor (d0 :: 1%nat :: rest)
            (fun idx =>
               norm (map (fun k => item t (set_nth 1 k idx)) (seq 0 d1))))
  | _ => Raise IndexError
  end.

(** [t.repeat(n, 1)] of a vector: [n] copies stacked as rows. *)
Definition repeat_rows (n : nat) (t : Tensor) : result Tensor :=
  match shape t with
  | [] => Ok (mkTensor [n; 1%nat] (fun _ => item t []))
  | [d] => Ok (mkTensor [n; d] (fun idx => item t [nth 1 idx 0%nat]))
  | [r; d] =>
      Ok (mkTensor [(n * r)%nat; d]
            (fun idx => item t [Nat.modulo (nth 0 idx 0%nat) r; nth 1 idx 0%nat]))
  | _ => Raise RuntimeError
  end.

(** *** [view]: re-indexing of strided storage *)

Fixpoint unravel_rev (rs : list nat) (flat : nat) : list nat :=
  match rs with
  | [] => []
  | d :: rs' => Nat.modulo flat d :: unravel_rev rs' (Nat.div flat d)
  end.

Definition unravel (s : list nat) (flat : nat) : list nat :=
  rev (unravel_rev (rev s) flat).

Definition numel (s : list nat) : nat := fold_right Nat.mul 1%nat s.

(** The strides of a contiguous tensor, in elements. *)
Fixpoint contiguous_strides (s : list nat) : list nat :=
  match s with
  | [] => []
  | _ :: s' =>
      let rest := contiguous_strides s' in
      (Nat.max (hd 1%nat s') 1 * hd 1%nat rest)%nat :: rest
  end.

(** The storage offset of the element at [idx]. *)
Fixpoint offset (strides idx : list nat) : nat :=
  match strides, idx with
  | st :: strides', i :: idx' => (i * st + offset strides' idx')%nat
  | _, _ => 0%nat
  end.

(** The dimensions of a view, last first, take their strides from the
    current chunk of the tensor while the chunk is not filled or the
    dimension has size 1. *)
Fixpoint fill_chunk (view_rev : list nat) (base tensor_numel view_numel : nat)
  (acc : list nat) : list nat * nat * list nat :=
  match view_rev with
  | d :: rest =>
      if Nat.ltb view_numel tensor_numel || Nat.eqb d 1
      then fill_chunk rest base tensor_numel (view_numel * d)
                      ((view_numel * base)%nat :: acc)
      else (view_rev, view_numel, acc)
  | [] => ([], view_numel, acc)
  end.

(** The loop of [computeStride]: the dimensions of the tensor, last
    first and with their strides, are gathered into chunks that lie
    evenly spaced in the storage; every chunk must be filled exactly by
    dimensions of the view. *)
Fixpoint stride_chunks (old_rev : list (nat * nat)) (view_rev : list nat)
  (base tensor_numel : nat) (acc : list nat) : option (list nat) :=
  match old_rev with
  | [] => match view_rev with [] => Some acc | _ :: _ => None end
  | (size, _) :: rest =>
      let tensor_numel := (tensor_numel * size)%nat in
      let chunk_end :=
        match rest with
        | [] => true
        | (size', stride') :: _ =>
            negb (Nat.eqb size' 1)
            && negb (Nat.eqb stride' (tensor_numel * base))
        end in
      if chunk_end then
        let '(view_rev', view_numel, acc') :=
          fill_chunk view_rev base tensor_numel 1 acc in
        if Nat.eqb view_numel tensor_numel then
          match rest with
          | [] => stride_chunks rest view_rev' base tensor_numel acc'
          | (_, stride') :: _ => stride_chunks rest view_rev' stride' 1 acc'
          end
        else None
      else stride_chunks rest view_rev base tensor_numel acc
  end.

(** The strides under which a tensor of sizes [oldshape] and strides
    [oldstride] can be read in the shape [newshape] without a copy, if
    there are any. *)
Definition compute_stride (oldshape oldstride newshape : list nat)
  : option (list nat) :=
  match oldshape with
  | [] => Some (map (fun _ => 1%nat) newshape)
  | _ :: _ =>
      if Nat.eqb (numel oldshape) 0 then
        if list_eqb oldshape newshape then Some oldstride
        else Some (contiguous_strides newshape)
      else
        stride_chunks (rev (combine oldshape oldstride)) (rev newshape)
                      (last oldstride 1%nat) 1 []
  end.

(** [t.view(-1, a, b)] of a tensor [t] that reads the contiguous tensor
    [base] with the given sizes and strides.  The first size is
    inferred; a shape that does not fit the number of elements, or that
    the strides do not admit, is a [RuntimeError]. *)
Definition view_m1 (a b : nat) (base : Tensor) (sizes strides : list nat)
  : result Tensor :=
  let n := numel sizes in
  if Nat.eqb (a * b) 0 then Raise RuntimeError
  else if Nat.eqb (Nat.modulo n (a * b)) 0 then
    let s := [Nat.div n (a * b); a; b] in
    match compute_stride sizes strides s with
    | Some st =>
        Ok (mkTensor s
              (fun idx => item base (unravel (shape base) (offset st idx))))
    | None => Raise RuntimeError
    end
  else Raise RuntimeError.

(** ** Python floats (binary64), for the scalar camera parameters and
    for LAPACK *)

Definition pyfloat : Type := spec_float.
Definition pyfloat_mul : pyfloat -> pyfloat -> pyfloat := SFmul 53 1024.
Definition pyfloat_half : pyfloat :=
  Eval vm_compute in
    SFdiv 53 1024 (binary_normalize 53 1024 1 0 false)
                  (binary_normalize 53 1024 2 0 false).

(** A binary32 value read as a binary64 value, which is exact, and a
    binary64 value rounded to binary32 (to nearest, ties to even). *)
Definition double_of_f32 (x : f32) : pyfloat :=
  match x with
  | S754_finite s m e => binary_normalize 53 1024 (cond_Zopp s (Zpos m)) e s
  | _ => x
  end.

Definition f32_of_double (x : pyfloat) : f32 :=
  match x with
  | S754_finite s m e => binary_normalize 24 128 (cond_Zopp s (Zpos m)) e s
  | _ => x
  end.

(** ** Collaborators

    Records for the objects the model reads, and one interface for the
    functions it calls in other modules and packages.  Two numeric
    kernels belong to the interface because the libraries do not fix
    their rounding: LAPACK's inversion behind [numpy.linalg.inv] and the
    reduction behind [torch]'s norm. *)

(** [nerfstudio.cameras.cameras.Cameras], the fields read here. *)
Record Cameras : Type := {
  camera_to_worlds : Tensor;
  fx : pyfloat;
  fy : pyfloat;
  width : Z;
  height : Z
}.

Record RayBundle : Type := { camera : Cameras }.

(** [GaussianSplattingCamera], as built by [ns2gs_camera]. *)
Record GaussianSplattingCamera : Type := {
  R : Tensor;
  T : Tensor;
  cam_width : Z;
  cam_height : Z;
  FoVx : pyfloat;
  FoVy : pyfloat
}.

(** [GaussianSplattingField], the attributes read by [render]. *)
Record GaussianSplattingField : Type := {
  get_xyz : Tensor;
  get_opacity : Tensor;
  get_scaling : Tensor;
  get_rotation : Tensor;
  get_features : Tensor;
  active_sh_degree : nat;
  max_sh_degree : nat;
  get_covariance : pyfloat -> result Tensor
}.

Record PipelineParams : Type := {
  convert_SHs_python : bool;
  compute_cov3D_python : bool;
  debug : bool
}.

(** [PipelineParams.__init__] *)
Definition PipelineParams_init : PipelineParams :=
  {| convert_SHs_python := false;
     compute_cov3D_python := false;
     debug := false |}.

Record GaussianRasterizationSettings : Type := {
  image_height : Z;
  image_width : Z;
  tanfovx : pyfloat;
  tanfovy : pyfloat;
  bg : Tensor;
  scale_modifier : pyfloat;
  viewmatrix : Tensor;
  projmatrix : Tensor;
  sh_degree : nat;
  campos : Tensor;
  prefiltered : bool;
  rs_debug : bool
}.

(** The keyword arguments of the rasterizer call. *)
Record RasterArgs : Type := {
  means3D : Tensor;
  means2D : Tensor;
  shs : option Tensor;
  colors_precomp : option Tensor;
  opacities : Tensor;
  scales : option Tensor;
  rotations : option Tensor;
  cov3D_precomp : option Tensor
}.

(** The two [deepseecolor] networks, as the functions they compute once
    their weights are loaded. *)
Record AttenuateNet : Type := {
  at_forward : Tensor -> Tensor -> result (Tensor * Tensor)
}.

Record BackscatterNet : Type := {
  bs_forward : Tensor -> result Tensor
}.

Definition StateDict : Type := list (string * Tensor).

Record GaussianSplattingModelConfig : Type := {
  background_color : string;
  cfg_sh_degree : nat
}.

Class External : Type := {
  (** The routine behind [numpy.linalg.inv], on the rows of a square
      matrix: LAPACK's [gesv] against the identity, run in binary64 and
      cast back to binary32.  [None] when LAPACK reports a pivot that
      is exactly zero, which numpy turns into [LinAlgError].  Last bits
      and signs of zeros depend on the LAPACK build. *)
  umath_linalg_inv : list (list f32) -> option (list (list f32));
  (** the 2-norm of a vector, as the reduction kernel of [torch]
      accumulates it *)
  vector_norm : list f32 -> f32;
  (** [diff_gaussian_rasterization]: image, radii, depth *)
  GaussianRasterizer :
    GaussianRasterizationSettings -> RasterArgs ->
    result (Tensor * list Z * Tensor);
  (** [nerfstudio.utils.gaussian_splatting_sh_utils] *)
  eval_sh : nat -> Tensor -> Tensor -> result Tensor;
  (** [nerfstudio.utils.gaussian_splatting_graphics_utils], on Python
      floats *)
  focal2fov : pyfloat -> Z -> pyfloat;
  (** [math.tan] *)
  math_tan : pyfloat -> pyfloat;
  (** attributes [GaussianSplattingCamera] derives from its arguments *)
  cam_image_height : GaussianSplattingCamera -> Z;
  cam_image_width : GaussianSplattingCamera -> Z;
  world_view_transform : GaussianSplattingCamera -> Tensor;
  full_proj_transform : GaussianSplattingCamera -> Tensor;
  camera_center : GaussianSplattingCamera -> Tensor;
  (** [torch.load]; the path is whatever the caller passed, also [None] *)
  torch_load : option string -> result StateDict;
  (** [load_state_dict], [cuda] and [eval] on a fresh [Net()]; building
      the fresh network itself is taken to succeed *)
  AttenuateNet_load : StateDict -> result AttenuateNet;
  BackscatterNet_load : StateDict -> result BackscatterNet;
  (** [Model.__init__], which ends by loading the Gaussians into
      [self.gaussian_model] *)
  Model_init :
    GaussianSplattingModelConfig -> option string -> Z ->
    result GaussianSplattingField
}.

(** ** The model *)

Record GaussianSplatting : Type := {
  config : GaussianSplattingModelConfig;
  model_path : option string;
  load_iteration : Z;
  orientation_transform : option Tensor;
  pipeline_params : PipelineParams;
  bg_color : list Z;
  gaussian_model : GaussianSplattingField;
  scaling_modifier_slider : pyfloat;
  do_seathru : bool;
  at_model : option AttenuateNet;
  bs_model : option BackscatterNet
}.

(** What [render] returns. *)
Record RenderResults : Type := {
  render_ : Tensor;
  rendered_depth : Tensor;
  viewspace_points : Tensor;
  visibility_filter : list bool;
  radii : list Z
}.

(** The dictionary [get_outputs_for_camera_ray_bundle] returns, in
    insertion order. *)
Definition Outputs : Type := list (string * Tensor).

Definition keys (d : Outputs) : list string := map fst d.

Fixpoint lookup (k : string) (d : Outputs) : option Tensor :=
  match d with
  | [] => None
  | (k', v) :: d' => if String.eqb k k' then Some v else lookup k d'
  end.

(** *** Construction *)

Inductive Event : Type :=
| EvPrint (line : string)
| EvTorchLoad (path : option string).

(** [str(x)] of a value that is a string or [None] *)
Definition py_str (x : option string) : string :=
  match x with
  | Some s => s
  | None => "None"
  end.

(** [x != "None"] for such a value: [None] is not a string. *)
Definition ne_literal_None (x : option string) : bool :=
  match x with
  | Some s => negb (String.eqb s "None")
  | None => true
  end.

Section Model.

Context {ext : External}.

(** The compositing models are loaded by lines 75 to 85. *)
Definition load_seathru (backscatter_model_path attenuation_model_path
                         : option string)
  : list Event * result (AttenuateNet * BackscatterNet) :=
  let log :=
    [EvPrint ("Loading backscatter model " ++ py_str backscatter_model_path);
     EvPrint ("Loading attenuation model " ++ py_str attenuation_model_path);
     EvTorchLoad attenuation_model_path] in
  match torch_load attenuation_model_path with
  | Raise e => (log, Raise e)
  | Ok sd_at =>
      match AttenuateNet_load sd_at with
      | Raise e => (log, Raise e)
      | Ok at_net =>
          let log := log ++ [EvTorchLoad backscatter_model_path] in
          (log,
           sd_bs <- torch_load backscatter_model_path ;;
           bs_net <- BackscatterNet_load sd_bs ;;
           Ok (at_net, bs_net))
      end
  end.

Definition __init__
  (config : GaussianSplattingModelConfig)
  (model_path : option string)
  (load_iteration : Z)
  (orientation_transform : option Tensor)
  (backscatter_model_path attenuation_model_path : option string)
  : list Event * result GaussianSplatting :=
  let pipeline_params := PipelineParams_init in
  let bg_color :=
    if String.eqb (background_color config) "black"
    then [0; 0; 0]%Z else [1; 1; 1]%Z in
  match Model_init config model_path load_iteration with
  | Raise e => ([], Raise e)
  | Ok gm =>
      let scaling_modifier_slider := SFone 53 1024 in
      let do_seathru :=
        ne_literal_None attenuation_model_path
        && ne_literal_None backscatter_model_path in
      let self at_m bs_m :=
        {| config := config;
           model_path := model_path;
           load_iteration := load_iteration;
           orientation_transform := orientation_transform;
           pipeline_params := pipeline_params;
           bg_color := bg_color;
           gaussian_model := gm;
           scaling_modifier_slider := scaling_modifier_slider;
           do_seathru := do_seathru;
           at_model := at_m;
           bs_model := bs_m |} in
      if do_seathru then
        let '(log, r) :=
          load_seathru backscatter_model_path attenuation_model_path in
        (log, '(at_net, bs_net) <- r ;; Ok (self (Some at_net) (Some bs_net)))
      else ([], Ok (self None None))
  end.

(** *** Camera conversion *)

(** [numpy.linalg.inv(a)] of a matrix: numpy itself refuses an array
    of fewer than two dimensions or one that is not square, and raises
    when LAPACK reports the matrix singular; all three are
    [LinAlgError].  Stacks of matrices do not arise here: an array of
    more than two dimensions is refused as well. *)
Definition np_linalg_inv (a : Tensor) : result Tensor :=
  match shape a with
  | [n; m] =>
      if Nat.eqb n m then
        match umath_linalg_inv (to_rows a) with
        | Some rows => Ok (mkTensor [n; n] (item (of_rows rows)))
        | None => Raise LinAlgError
        end
      else Raise LinAlgError
  | _ => Raise LinAlgError
  end.

Definition ns2gs_camera (self : GaussianSplatting) (ns_camera : Cameras)
  : result GaussianSplattingCamera :=
  let c2w := camera_to_worlds ns_camera in
  c2w <- torch_concatenate0 c2w
           (of_rows [map F32.of_Z [0; 0; 0; 1]%Z]) ;;
  (* reorient *)
  c2w <- match orientation_transform self with
         | Some o => torch_matmul o c2w
         | None => Ok c2w
         end ;;
  (* from OpenGL/Blender camera axes to COLMAP *)
  c2w <- imul_block 0 3 1 3 F32.minus_one c2w ;;
  (* the world-to-camera transform, R and T *)
  w2c <- np_linalg_inv c2w ;;
  let R := np_transpose (slice_block 3 3 w2c) in
  T <- slice_column 3 3 w2c ;;
  let FovY := focal2fov (fy ns_camera) (height ns_camera) in
  let FovX := focal2fov (fx ns_camera) (width ns_camera) in
  Ok {| R := R;
        T := T;
        cam_width := width ns_camera;
        cam_height := height ns_camera;
        FoVx := FovX;
        FoVy := FovY |}.

(** *** Rendering *)

Definition zeros_like (t : Tensor) : Tensor :=
  mkTensor (shape t) (fun _ => F32.zero).

(** [torch.zeros_like(pc.get_xyz, ...) + 0] *)
Definition screenspace_points (pc : GaussianSplattingField) : Tensor :=
  tensor_map (fun x => F32.add x (F32.of_Z 0)) (zeros_like (get_xyz pc)).

(** Lines 221 to 228 of [render]: (scales, rotations, cov3D_precomp). *)
Definition render_covariance_source
  (pc : GaussianSplattingField) (pipe : PipelineParams)
  (scaling_modifier : pyfloat)
  : result (option Tensor * option Tensor * option Tensor) :=
  if compute_cov3D_python pipe then
    c <- get_covariance pc scaling_modifier ;;
    Ok (None, None, Some c)
  else Ok (Some (get_scaling pc), Some (get_rotation pc), None).

(** The sizes or strides [l] after [transpose(d0, d1)]. *)
Definition transposed (d0 d1 : nat) (l : list nat) : list nat :=
  map (fun j => nth (if Nat.eqb j d0 then d1
                     else if Nat.eqb j d1 then d0 else j) l 0%nat)
      (seq 0 (length l)).

(** [pc.get_features.transpose(1, 2).view(-1, 3, (pc.max_sh_degree + 1) ** 2)].
    [get_features] is a fresh concatenation, hence contiguous; the
    transposition exchanges two of its strides, and [view] has to do
    with those. *)
Definition shs_view_of (pc : GaussianSplattingField) : result Tensor :=
  let features := get_features pc in
  ft <- transpose 1 2 features ;;
  view_m1 3 ((max_sh_degree pc + 1) * (max_sh_degree pc + 1)) features
          (shape ft) (transposed 1 2 (contiguous_strides (shape features))).

(** [dir_pp / dir_pp.norm(dim=1, keepdim=True)] for
    [dir_pp = pc.get_xyz - camera_center.repeat(N, 1)] *)
Definition dir_pp_normalized_of
  (viewpoint_camera : GaussianSplattingCamera) (pc : GaussianSplattingField)
  : result Tensor :=
  rep <- repeat_rows (nth 0 (shape (get_features pc)) 0%nat)
                     (camera_center viewpoint_camera) ;;
  dir_pp <- tensor_sub (get_xyz pc) rep ;;
  nrm <- norm_dim1_keepdim vector_norm dir_pp ;;
  tensor_div dir_pp nrm.

(** Lines 232 to 244 of [render]: (shs, colors_precomp). *)
Definition render_color_source
  (viewpoint_camera : GaussianSplattingCamera)
  (pc : GaussianSplattingField) (pipe : PipelineParams)
  (override_color : option Tensor)
  : result (option Tensor * option Tensor) :=
  match override_color with
  | None =>
      if convert_SHs_python pipe then
        shs_view <- shs_view_of pc ;;
        dir_pp_normalized <- dir_pp_normalized_of viewpoint_camera pc ;;
        sh2rgb <- eval_sh (active_sh_degree pc) shs_view dir_pp_normalized ;;
        Ok (None,
            Some (torch_clamp_min
                    (tensor_map (fun x => F32.add x F32.half) sh2rgb)
                    F32.zero))
      else Ok (Some (get_features pc), None)
  | Some c => Ok (None, Some c)
  end.

Definition raster_settings_of
  (viewpoint_camera : GaussianSplattingCamera)
  (pc : GaussianSplattingField) (pipe : PipelineParams)
  (bg_color : Tensor) (scaling_modifier : pyfloat)
  : GaussianRasterizationSettings :=
  {| image_height := cam_image_height viewpoint_camera;
     image_width := cam_image_width viewpoint_camera;
     tanfovx := math_tan (pyfloat_mul (FoVx viewpoint_camera) pyfloat_half);
     tanfovy := math_tan (pyfloat_mul (FoVy viewpoint_camera) pyfloat_half);
     bg := bg_color;
     scale_modifier := scaling_modifier;
     viewmatrix := world_view_transform viewpoint_camera;
     projmatrix := full_proj_transform viewpoint_camera;
     sh_degree := active_sh_degree pc;
     campos := camera_center viewpoint_camera;
     prefiltered := false;
     rs_debug := debug pipe |}.

(** The arguments [render] hands to the rasterizer. *)
Definition raster_args_of
  (viewpoint_camera : GaussianSplattingCamera)
  (pc : GaussianSplattingField) (pipe : PipelineParams)
  (scaling_modifier : pyfloat) (override_color : option Tensor)
  : result RasterArgs :=
  '(scales, rotations, cov3D_precomp) <-
     render_covariance_source pc pipe scaling_modifier ;;
  '(shs, colors_precomp) <-
     render_color_source viewpoint_camera pc pipe override_color ;;
  Ok {| means3D := get_xyz pc;
        means2D := screenspace_points pc;
        shs := shs;
        colors_precomp := colors_precomp;
        opacities := get_opacity pc;
        scales := scales;
        rotations := rotations;
        cov3D_precomp := cov3D_precomp |}.

Definition render
  (viewpoint_camera : GaussianSplattingCamera)
  (pc : GaussianSplattingField) (pipe : PipelineParams)
  (bg_color : Tensor) (scaling_modifier : pyfloat)
  (override_color : option Tensor)
  : result RenderResults :=
  let raster_settings :=
    raster_settings_of viewpoint_camera pc pipe bg_color scaling_modifier in
  args <- raster_args_of viewpoint_camera pc pipe scaling_modifier
                         override_color ;;
  (* rasterize visible Gaussians to image, obtain their radii *)
  '(rendered_image, radii, depth) <- GaussianRasterizer raster_settings args ;;
  Ok {| render_ := rendered_image;
        rendered_depth := depth;
        viewspace_points := screenspace_points pc;
        visibility_filter := map (fun r => Z.ltb 0 r) radii;
        radii := radii |}.

(** *** Output assembly *)

Definition get_attr {A : Type} (a : option A) : result A :=
  match a with
  | Some x => Ok x
  | None => Raise AttributeError
  end.

Definition get_outputs_for_camera_ray_bundle
  (self : GaussianSplatting) (camera_ray_bundle : RayBundle)
  : result Outputs :=
  viewpoint_camera <- ns2gs_camera self (camera camera_ray_bundle) ;;
  let background := of_list (map F32.of_Z (bg_color self)) in
  render_results <-
    render viewpoint_camera (gaussian_model self) (pipeline_params self)
           background (scaling_modifier_slider self) None ;;
  let image := render_ render_results in
  let depth_image := rendered_depth render_results in
  max_depth <- torch_max depth_image ;;
  rgb <- permute [1; 2; 0]%nat (torch_clamp image F32.zero F32.one) ;;
  normalized <- tensor_div depth_image max_depth ;;
  depth <- permute [1; 2; 0]%nat normalized ;;
  if do_seathru self then
    let depth_batch := unsqueeze0 depth_image in
    let rgb_batch := unsqueeze0 image in
    at_net <- get_attr (at_model self) ;;
    '(direct, attenuation_map) <- at_forward at_net rgb_batch depth_batch ;;
    bs_net <- get_attr (bs_model self) ;;
    backscatter <- bs_forward bs_net depth_batch ;;
    sum <- tensor_add direct backscatter ;;
    let underwater_image := torch_clamp sum F32.zero F32.one in
    out_depth <- permute [1; 2; 0]%nat depth_image ;;
    out_backscatter <- permute [1; 2; 0]%nat (squeeze backscatter) ;;
    out_attenuation <- permute [1; 2; 0]%nat (squeeze attenuation_map) ;;
    out_direct <- permute [1; 2; 0]%nat (squeeze direct) ;;
    out_underwater <- permute [1; 2; 0]%nat (squeeze underwater_image) ;;
    Ok [("rgb", rgb);
        ("depth", out_depth);
        ("backscatter", out_backscatter);
        ("attenuation", out_attenuation);
        ("direct", out_direct);
        ("underwater_image", out_underwater)]
  else
    Ok [("rgb", rgb); ("depth", depth)].

End Model.

(** *** The matrix that is inverted *)

(** Lines 150 to 158 of [ns2gs_camera]: the matrix that is inverted. *)
Definition corrected_c2w (self : GaussianSplatting) (ns_camera : Cameras)
  : result Tensor :=
  c2w <- torch_concatenate0 (camera_to_worlds ns_camera)
           (of_rows [map F32.of_Z [0; 0; 0; 1]%Z]) ;;
  c2w <- match orientation_transform self with
         | Some o => torch_matmul o c2w
         | None => Ok c2w
         end ;;
  imul_block 0 3 1 3 F32.minus_one c2w.

(** ** Field of view and focal length *)

Module GraphicsUtils.

(** Modelled from the spec: [focal2fov] and [fov2focal] of
    nerfstudio/utils/gaussian_splatting_graphics_utils.py, which this
    model imports; over the real numbers, which the floating-point code
    follows up to rounding. *)
Definition focal2fov (focal pixels : Rdefinitions.R) : Rdefinitions.R :=
  (2 * atan (pixels / (2 * focal)))%R.

Definition fov2focal (fov pixels : Rdefinitions.R) : Rdefinitions.R :=
  (pixels / (2 * tan (fov / 2)))%R.

End GraphicsUtils.

(** * Specification vocabulary

    The predicates in which the claims are stated. *)

(** The clamped colour image, in height-width-channel layout. *)
Definition is_rgb_of (image : Tensor) (C H W : nat) (rgb : Tensor) : Prop :=
  shape rgb = [H; W; C] /\
  forall i j k,
    item rgb [i; j; k] = F32.clamp F32.zero F32.one (item image [k; i; j]).

(** The depth image [raw] divided by the frame maximum [m], in
    height-width-channel layout. *)
Definition is_normalized_depth_of (raw : Tensor) (H W : nat)
  (m depth : Tensor) : Prop :=
  shape depth = [H; W; 1%nat] /\
  forall i j, (i < H)%nat -> (j < W)%nat ->
    item depth [i; j; 0%nat] = F32.div (item raw [0%nat; i; j]) (item m []).

(** A batch of one image, in height-width-channel layout. *)
Definition is_unbatched (H W c : nat) (src out : Tensor) : Prop :=
  shape out = [H; W; c] /\
  forall i j k, item out [i; j; k] = item src [0%nat; k; i; j].

(** The key set of a bundle is exactly rgb and depth. *)
Definition only_rgb_and_depth (out : Outputs) : Prop :=
  (forall k, In k (keys out) <-> k = "rgb" \/ k = "depth") /\
  lookup "backscatter" out = None /\
  lookup "attenuation" out = None /\
  lookup "direct" out = None /\
  lookup "underwater_image" out = None.

(** The depth entry of a bundle is the raw depth over the frame maximum
    [m], in height-width-channel layout. *)
Definition returns_normalized_depth {ext : External}
  (self : GaussianSplatting) (bundle : RayBundle) (raw m : Tensor) (H W : nat)
  : Prop :=
  exists out depth,
    get_outputs_for_camera_ray_bundle self bundle = Ok out /\
    lookup "depth" out = Some depth /\
    shape depth = [H; W; 1%nat] /\
    (forall i j, (i < H)%nat -> (j < W)%nat ->
       item depth [i; j; 0%nat] = F32.div (item raw [0%nat; i; j]) (item m [])) /\
    (forall i j, (i < H)%nat -> (j < W)%nat ->
       item raw [0%nat; i; j] = F32.of_Z 5 -> item m [] = F32.of_Z 10 ->
       item depth [i; j; 0%nat] = F32.half).


(** Every pixel of the depth entry of a bundle is NaN. *)
Definition returns_nan_depth {ext : External}
  (self : GaussianSplatting) (bundle : RayBundle) (H W : nat) : Prop :=
  exists out depth,
    get_outputs_for_camera_ray_bundle self bundle = Ok out /\
    lookup "depth" out = Some depth /\
    forall i j, (i < H)%nat -> (j < W)%nat ->
      item depth [i; j; 0%nat] = S754_nan /\
      F32.is_zero (item depth [i; j; 0%nat]) = false.

(** No pixel of the depth entry of a bundle is NaN. *)
Definition returns_defined_depth {ext : External}
  (self : GaussianSplatting) (bundle : RayBundle) (H W : nat) : Prop :=
  exists out depth,
    get_outputs_for_camera_ray_bundle self bundle = Ok out /\
    lookup "depth" out = Some depth /\
    forall i j, (i < H)%nat -> (j < W)%nat ->
      F32.is_nan (item depth [i; j; 0%nat]) = false.

(** The visibility flags are the element-wise test radius > 0. *)
Definition visibility_is_positive_radius (rad : list Z) (vis : list bool)
  : Prop :=
  length vis = length rad /\
  forall i, (i < length rad)%nat ->
    nth i vis false = (0 <? nth i rad 0)%Z /\
    ((0 < nth i rad 0)%Z -> nth i vis false = true) /\
    (nth i rad 0%Z = 0%Z -> nth i vis false = false).

(** What the constructor does about compositing, for given path
    arguments: whether it starts loading a model, and the flag it leaves
    in the object. *)
Definition compositing_decided_by_literal_None {ext : External}
  (atp bsp : option string) (log : list Event) (r : result GaussianSplatting)
  : Prop :=
  let both_differ := atp <> Some "None" /\ bsp <> Some "None" in
  (both_differ <-> In (EvTorchLoad atp) log) /\
  (forall self, r = Ok self -> (do_seathru self = true <-> both_differ)) /\
  (forall self, r = Ok self -> both_differ ->
     at_model self <> None /\ bs_model self <> None) /\
  (atp = None -> bsp <> Some "None" -> In (EvTorchLoad None) log) /\
  (bsp = None -> atp <> Some "None" -> In (EvTorchLoad atp) log).





(** The entries of a matrix are the given integers, as numbers: the two
    zeros are not told apart. *)
Fixpoint row_is (xs : list f32) (zs : list Z) : bool :=
  match xs, zs with
  | [], [] => true
  | x :: xs', z :: zs' => SFeqb x (F32.of_Z z) && row_is xs' zs'
  | _, _ => false
  end.

Fixpoint matrix_is (rows : list (list f32)) (zs : list (list Z)) : bool :=
  match rows, zs with
  | [], [] => true
  | r :: rows', z :: zs' => row_is r z && matrix_is rows' zs'
  | _, _ => false
  end.

(** The stages of [ns2gs_camera], entry by entry. *)
Definition camera_conversion_spec {ext : External}
  (self : GaussianSplatting) (ns_camera : Cameras) : Prop :=
  let c2w := camera_to_worlds ns_camera in
  exists M0 M1 M2,
    (* homogenized: the row 0 0 0 1 appended *)
    torch_concatenate0 c2w (of_rows [map F32.of_Z [0; 0; 0; 1]%Z]) = Ok M0 /\
    shape M0 = [4; 4]%nat /\
    (forall i j, (i < 3)%nat -> item M0 [i; j] = item c2w [i; j]) /\
    (forall j, item M0 [3%nat; j] = nth j (map F32.of_Z [0; 0; 0; 1]%Z) F32.zero) /\
    (* re-oriented, if a transform is configured *)
    match orientation_transform self with
    | None => M1 = M0
    | Some o =>
        torch_matmul o M0 = Ok M1 /\ shape M1 = [4; 4]%nat /\
        forall i j,
          item M1 [i; j] =
          sum_f32 (map (fun l => F32.mul (item o [i; l]) (item M0 [l; j]))
                       (seq 0 4))
    end /\
    (* columns 1 and 2 of the first three rows negated, the rest kept *)
    corrected_c2w self ns_camera = Ok M2 /\
    shape M2 = [4; 4]%nat /\
    (forall i j, (i < 3)%nat -> j = 1%nat \/ j = 2%nat ->
       item M2 [i; j] = F32.mul (item M1 [i; j]) F32.minus_one /\
       (valid_binary F32.prec F32.emax (item M1 [i; j]) = true ->
        item M2 [i; j] = SFopp (item M1 [i; j]))) /\
    (forall i j, (3 <= i)%nat \/ j = 0%nat \/ (3 <= j)%nat ->
       item M2 [i; j] = item M1 [i; j]) /\
    (* inverted: the world-to-camera matrix is what numpy's inversion
       routine makes of the rows of M2 *)
    match umath_linalg_inv (to_rows M2) with
    | Some rows =>
        exists w2c cam,
          np_linalg_inv M2 = Ok w2c /\
          shape w2c = [4; 4]%nat /\
          (forall i j, item w2c [i; j] = item (of_rows rows) [i; j]) /\
          (* R is the transposed rotation block, T the last column *)
          ns2gs_camera self ns_camera = Ok cam /\
          shape (R cam) = [3; 3]%nat /\
          (forall i j, item (R cam) [i; j] = item w2c [j; i]) /\
          shape (T cam) = [3%nat] /\
          (forall i, item (T cam) [i] = item w2c [i; 3%nat])
    | None =>
        np_linalg_inv M2 = Raise LinAlgError /\
        ns2gs_camera self ns_camera = Raise LinAlgError
    end.


(** ** A reference backend

    Small stand-ins for the collaborators, on which the model runs to
    the end: a rasterizer that returns a given frame, degree-0 spherical
    harmonics, two networks with fixed responses, an elimination in
    binary64 in the place of LAPACK and a sequential norm. *)

Module Example.

Definition f32_finite (m : positive) (e : Z) : f32 := S754_finite false m e.

Definition five : f32 := Eval vm_compute in F32.of_Z 5.
Definition ten : f32 := Eval vm_compute in F32.of_Z 10.
Definition quarter : f32 := f32_finite 8388608 (-25).
(** 0.28209479177387814, the degree-0 harmonic *)
Definition C0 : f32 := f32_finite 9465531 (-25).

(** A 3x2x2 colour frame whose channel [c] is constantly [c]. *)
Definition two : f32 := Eval vm_compute in F32.of_Z 2.

Definition frame_image : Tensor :=
  mkTensor [3; 2; 2]%nat
    (fun idx => nth (nth 0 idx 0%nat) [F32.zero; F32.one; two] F32.zero).

(** A 1x2x2 depth frame, 10.0 everywhere but 5.0 at row 0, column 1. *)
Definition frame_depth : Tensor :=
  mkTensor [1; 2; 2]%nat
    (fun idx =>
       if Nat.eqb (nth 1 idx 0%nat) 0 && Nat.eqb (nth 2 idx 0%nat) 1
       then five else ten).

(** The depth frame of an empty scene. *)
Definition zero_depth : Tensor := mkTensor [1; 2; 2]%nat (fun _ => F32.zero).

Definition frame_radii : list Z := [3; 0]%Z.

(** Two Gaussians, with one harmonic coefficient per channel. *)
Definition field : GaussianSplattingField :=
  {| get_xyz := of_rows (map (map F32.of_Z) [[1; 2; 2]; [0; 3; 4]]%Z);
     get_opacity := of_rows [[F32.one]; [F32.one]];
     get_scaling := of_rows (map (map F32.of_Z) [[1; 1; 1]; [1; 1; 1]]%Z);
     get_rotation := of_rows (map (map F32.of_Z) [[1; 0; 0; 0]; [1; 0; 0; 0]]%Z);
     get_features :=
       mkTensor [2; 1; 3]%nat
         (fun idx =>
            nth (nth 2 idx 0%nat)
                (nth (nth 0 idx 0%nat)
                     [[F32.zero; F32.minus_one; F32.one];
                      [F32.one; F32.zero; F32.minus_one]] [])
                F32.zero);
     active_sh_degree := 0;
     max_sh_degree := 0;
     get_covariance := fun _ => Raise (ExternalError "get_covariance") |}.

Definition attenuate_net : AttenuateNet :=
  {| at_forward := fun rgb _ => Ok (rgb, rgb) |}.

Definition backscatter_net : BackscatterNet :=
  {| bs_forward := fun d =>
       Ok (mkTensor [1%nat; 3%nat; nth 2 (shape d) 0%nat; nth 3 (shape d) 0%nat]
             (fun _ => quarter)) |}.

(** A stand-in for LAPACK's [gesv] against the identity, in binary64
    and rounded to binary32 at the end: the factorization with partial
    pivoting, a column at a time, and the two triangular solves, in the
    order of the reference implementation.  The matrix is reported
    singular when a pivot is exactly zero; NaN entries flow through.
    The rows carry the right-hand side after the matrix. *)
Definition Rows : Type := list (list pyfloat).

Definition entry (rows : Rows) (i j : nat) : pyfloat :=
  nth j (nth i rows []) (S754_zero false).

Definition build (n m : nat) (f : nat -> nat -> pyfloat) : Rows :=
  map (fun i => map (f i) (seq 0 m)) (seq 0 n).

Definition augment (n : nat) (rows : Rows) : Rows :=
  build n (2 * n)
    (fun i k => if Nat.ltb k n then entry rows i k
                else if Nat.eqb (k - n) i then SFone 53 1024
                else S754_zero false).

Fixpoint pivot_row (rows : Rows) (j : nat) (cands : list nat) (best : nat)
  : nat :=
  match cands with
  | [] => best
  | i :: cs =>
      if SFltb (SFabs (entry rows best j)) (SFabs (entry rows i j))
      then pivot_row rows j cs i
      else pivot_row rows j cs best
  end.

Definition swap_rows (i p : nat) (rows : Rows) : Rows :=
  map (fun k => nth (if Nat.eqb k i then p else if Nat.eqb k p then i else k)
                    rows [])
      (seq 0 (length rows)).

(** The smallest normal number: a pivot below it divides, any other
    multiplies by its reciprocal. *)
Definition sfmin : pyfloat := S754_finite false 4503599627370496 (-1074).

(** Column [j] of the factorization: pivot search, row interchange,
    multipliers, update of the columns to the right. *)
Definition lu_step (n j : nat) (a : Rows) : option Rows :=
  let p := pivot_row a j (seq (S j) (n - S j)) j in
  if F32.is_zero (entry a p j) then None
  else
    let a := swap_rows j p a in
    let pivot := entry a j j in
    let multiplier x :=
      if SFltb (SFabs pivot) sfmin then SFdiv 53 1024 x pivot
      else SFmul 53 1024 x (SFdiv 53 1024 (SFone 53 1024) pivot) in
    Some (build n (2 * n)
            (fun i k =>
               if Nat.leb i j || Nat.ltb k j || Nat.leb n k then entry a i k
               else if Nat.eqb k j then multiplier (entry a i j)
               else SFsub 53 1024 (entry a i k)
                      (SFmul 53 1024 (multiplier (entry a i j))
                                     (entry a j k)))).

Fixpoint lu (n : nat) (cols : list nat) (a : Rows) : option Rows :=
  match cols with
  | [] => Some a
  | j :: cols' =>
      match lu_step n j a with
      | Some a' => lu n cols' a'
      | None => None
      end
  end.

(** Step [k] of the solve with the unit lower triangle. *)
Definition forward_step (n k : nat) (a : Rows) : Rows :=
  build n (2 * n)
    (fun i c =>
       if Nat.ltb c n || Nat.leb i k || F32.is_zero (entry a k c)
       then entry a i c
       else SFsub 53 1024 (entry a i c)
              (SFmul 53 1024 (entry a k c) (entry a i k))).

(** Step [k] of the solve with the upper triangle. *)
Definition backward_step (n k : nat) (a : Rows) : Rows :=
  build n (2 * n)
    (fun i c =>
       if Nat.ltb c n || Nat.ltb k i || F32.is_zero (entry a k c)
       then entry a i c
       else
         let x := SFdiv 53 1024 (entry a k c) (entry a k k) in
         if Nat.eqb i k then x
         else SFsub 53 1024 (entry a i c) (SFmul 53 1024 x (entry a i k))).

Definition elimination_inverse (a : list (list f32))
  : option (list (list f32)) :=
  let n := length a in
  match lu n (seq 0 n) (augment n (map (map double_of_f32) a)) with
  | None => None
  | Some f =>
      let y := fold_left (fun b k => forward_step n k b) (seq 0 n) f in
      let x := fold_left (fun b k => backward_step n k b) (rev (seq 0 n)) y in
      Some (map (fun r => map f32_of_double (skipn n r)) x)
  end.

(** A stand-in for the norm: the squares are added from left to right
    in binary32. *)
Definition sequential_norm (xs : list f32) : f32 :=
  F32.sqrt (sum_f32 (map (fun x => F32.mul x x) xs)).

Definition backend (img : Tensor) (rad : list Z) (dep : Tensor) : External :=
  {| umath_linalg_inv := elimination_inverse;
     vector_norm := sequential_norm;
     GaussianRasterizer := fun _ _ => Ok (img, rad, dep);
     eval_sh := fun _ sh _ =>
       Ok (mkTensor [nth 0 (shape sh) 0%nat; 3%nat]
             (fun idx => F32.mul C0 (item sh [nth 0 idx 0%nat; nth 1 idx 0%nat; 0%nat])));
     focal2fov := fun f _ => f;
     math_tan := fun x => x;
     cam_image_height := cam_height;
     cam_image_width := cam_width;
     world_view_transform := R;
     full_proj_transform := R;
     camera_center := fun _ => of_list [F32.zero; F32.zero; F32.zero];
     torch_load := fun p =>
       match p with
       | Some _ => Ok []
       | None => Raise AttributeError
       end;
     AttenuateNet_load := fun _ => Ok attenuate_net;
     BackscatterNet_load := fun _ => Ok backscatter_net;
     Model_init := fun _ _ _ => Ok field |}.

(** The backend that renders the example frame, and the one that renders
    an empty scene. *)
Definition ext : External := backend frame_image frame_radii frame_depth.
Definition empty_ext : External := backend frame_image [] zero_depth.

Definition cfg : GaussianSplattingModelConfig :=
  {| background_color := "black"; cfg_sh_degree := 3 |}.

(** The identity pose, translated by (2, 3, 4). *)
Definition pose : Cameras :=
  {| camera_to_worlds :=
       of_rows (map (map F32.of_Z) [[1; 0; 0; 2]; [0; 1; 0; 3]; [0; 0; 1; 4]]%Z);
     fx := SFone 53 1024;
     fy := SFone 53 1024;
     width := 2;
     height := 2 |}.


Definition bundle : RayBundle := {| camera := pose |}.

Definition unwrap {A : Type} (d : A) (r : result A) : A :=
  match r with
  | Ok a => a
  | Raise _ => d
  end.

Definition blank_model : GaussianSplatting :=
  {| config := cfg;
     model_path := None;
     load_iteration := 0;
     orientation_transform := None;
     pipeline_params := PipelineParams_init;
     bg_color := [];
     gaussian_model := field;
     scaling_modifier_slider := SFone 53 1024;
     do_seathru := false;
     at_model := None;
     bs_model := None |}.

(** The model built without compositing models, and with both. *)
Definition construct (ext : External) (bs_path at_path : option string)
  : list Event * result GaussianSplatting :=
  @__init__ ext cfg (Some "output/scene") (-1) None bs_path at_path.

Definition clean_model (ext : External) : GaussianSplatting :=
  unwrap blank_model (snd (construct ext (Some "None") (Some "None"))).

Definition seathru_model (ext : External) : GaussianSplatting :=
  unwrap blank_model (snd (construct ext (Some "bs.pth") (Some "at.pth"))).

Definition blank_camera : GaussianSplattingCamera :=
  {| R := scalar F32.zero; T := scalar F32.zero; cam_width := 0;
     cam_height := 0; FoVx := S754_zero false; FoVy := S754_zero false |}.

Definition blank_results : RenderResults :=
  {| render_ := scalar F32.zero; rendered_depth := scalar F32.zero;
     viewspace_points := scalar F32.zero; visibility_filter := [];
     radii := [] |}.

Definition camera_of (ext : External) (self : GaussianSplatting)
  : GaussianSplattingCamera :=
  unwrap blank_camera (@ns2gs_camera ext self pose).

Definition results_of (ext : External) (self : GaussianSplatting)
  : RenderResults :=
  unwrap blank_results
    (@render ext (camera_of ext self) (gaussian_model self)
       (pipeline_params self) (of_list (map F32.of_Z (bg_color self)))
       (scaling_modifier_slider self) None).

(** A pose with a NaN entry. *)
Definition nan_pose : Cameras :=
  {| camera_to_worlds :=
       of_rows [[F32.one; F32.zero; F32.zero; F32.zero];
                [F32.zero; S754_nan; F32.zero; F32.zero];
                [F32.zero; F32.zero; F32.one; F32.zero]];
     fx := SFone 53 1024;
     fy := SFone 53 1024;
     width := 2;
     height := 2 |}.

(** A dataset-level re-orientation: the x and y axes exchanged. *)
Definition axis_swap : Tensor :=
  of_rows (map (map F32.of_Z)
             [[0; 1; 0; 0]; [1; 0; 0; 0]; [0; 0; 1; 0]; [0; 0; 0; 1]]%Z).

Definition oriented_model (ext : External) : GaussianSplatting :=
  unwrap blank_model
    (snd (@__init__ ext cfg (Some "output/scene") (-1) (Some axis_swap)
            (Some "None") (Some "None"))).

End Example.

Definition is_ok {A : Type} (r : result A) : bool :=
  match r with
  | Ok _ => true
  | Raise _ => false
  end.

(** * Loading the Gaussians

    [populate_modules] and [search_for_max_iteration], with the pieces
    of Python they rest on: [str.split], [int], [max], [str] of an
    integer and [os.path.join].  A file name is the string of its code
    points, each below 256.  Integers are unbounded, as in the language;
    the interpreter's optional limit on the length of a decimal
    conversion is taken to be off. *)

(** ** Strings *)

(** [s.split(sep)] for a one-character separator: never empty. *)
Fixpoint split_on (sep : ascii) (s : string) : list string :=
  match s with
  | EmptyString => [EmptyString]
  | String c r =>
      if Ascii.eqb c sep then EmptyString :: split_on sep r
      else
        match split_on sep r with
        | h :: t => String c h :: t
        | [] => [String c EmptyString]
        end
  end.

Fixpoint string_forall (p : ascii -> bool) (s : string) : bool :=
  match s with
  | EmptyString => true
  | String c r => p c && string_forall p r
  end.

(** [xs[-1]] of a list that is not empty *)
Definition last_item (xs : list string) : string := last xs EmptyString.

(** The characters [int] skips around a literal.  In an ASCII string
    these are tab to carriage return and the space; the separators 28 to
    31, which [str.isspace] accepts, are not among them.  The next-line
    character 133 and the no-break space 160 are read as spaces too. *)
Definition is_space (c : ascii) : bool :=
  let n := nat_of_ascii c in
  (Nat.leb 9 n && Nat.leb n 13) || Nat.eqb n 32
  || Nat.eqb n 133 || Nat.eqb n 160.

Definition is_digit (c : ascii) : bool :=
  let n := nat_of_ascii c in
  Nat.leb 48 n && Nat.leb n 57.

Fixpoint lstrip (s : string) : string :=
  match s with
  | String c r => if is_space c then lstrip r else s
  | EmptyString => EmptyString
  end.

(** White space dropped at the end: a character goes when it is white
    space and nothing but white space follows. *)
Fixpoint rstrip (s : string) : string :=
  match s with
  | EmptyString => EmptyString
  | String c r =>
      match rstrip r with
      | EmptyString => if is_space c then EmptyString else String c EmptyString
      | r' => String c r'
      end
  end.

Definition strip (s : string) : string := rstrip (lstrip s).

(** The digits of an integer literal, with the single underscores that
    may stand between two digits removed; [None] when a character is not
    a digit or an underscore is misplaced. *)
Fixpoint ungroup (s : string) (after_digit : bool) : option string :=
  match s with
  | EmptyString => if after_digit then Some EmptyString else None
  | String c r =>
      if is_digit c then option_map (String c) (ungroup r true)
      else if Ascii.eqb c "_" && after_digit then ungroup r false
      else None
  end.

Definition ValueError : Exception := ExternalError "ValueError".
Definition TypeError : Exception := ExternalError "TypeError".

(** [int(s)] of a string, in base ten: white space around, an optional
    sign, digits. *)
Definition py_int (s : string) : result Z :=
  let t := strip s in
  let '(negative, body) :=
    match t with
    | String c r =>
        if Ascii.eqb c "-" then (true, r)
        else if Ascii.eqb c "+" then (false, r)
        else (false, t)
    | EmptyString => (false, t)
    end in
  match ungroup body false with
  | None => Raise ValueError
  | Some digits =>
      match DecimalString.NilEmpty.uint_of_string digits with
      | None => Raise ValueError
      | Some d =>
          let n := Z.of_N (N.of_uint d) in
          Ok (if negative then (- n)%Z else n)
      end
  end.

(** [str(n)] of an integer *)
Definition py_str_int (n : Z) : string := DecimalString.NilZero.string_of_int (Z.to_int n).

(** [max(xs)] of a list of integers *)
Definition py_max (xs : list Z) : result Z :=
  match xs with
  | [] => Raise ValueError
  | x :: rest => Ok (fold_left Z.max rest x)
  end.

(** A list comprehension whose element expression may raise: the first
    exception ends it. *)
Fixpoint comprehension {A B : Type} (f : A -> result B) (xs : list A)
  : result (list B) :=
  match xs with
  | [] => Ok []
  | x :: rest =>
      y <- f x ;;
      ys <- comprehension f rest ;;
      Ok (y :: ys)
  end.

Definition starts_with_slash (s : string) : bool :=
  match s with
  | String "/" _ => true
  | _ => false
  end.

Fixpoint ends_with_slash (s : string) : bool :=
  match s with
  | EmptyString => false
  | String c EmptyString => Ascii.eqb c "/"
  | String _ r => ends_with_slash r
  end.

(** One step of [posixpath.join]. *)
Definition join_step (path b : string) : string :=
  if starts_with_slash b then b
  else
    match path with
    | EmptyString => b
    | _ =>
        if ends_with_slash path then (path ++ b)%string
        else (path ++ "/" ++ b)%string
    end.

(** [os.path.join(a, *p)] on a POSIX system; [a] is a string or [None]. *)
Definition os_path_join (a : option string) (p : list string)
  : result string :=
  match a with
  | None => Raise TypeError
  | Some a => Ok (fold_left join_step p a)
  end.

(** ** The file system and the point-cloud loader *)

Class Storage : Type := {
  (** [os.listdir] *)
  os_listdir : string -> result (list string);
  (** [GaussianSplattingField(sh_degree).load_ply(path)], giving the
      loaded field *)
  load_ply : nat -> string -> result GaussianSplattingField
}.

Inductive IOEvent : Type :=
| IoListdir (folder : string)
| IoPrint (line : string)
| IoLoadPly (path : string).

(** A computation that leaves a trace of its calls and may raise. *)
Definition IO (A : Type) : Type := list IOEvent * result A.

Definition io_bind {A B : Type} (m : IO A) (k : A -> IO B) : IO B :=
  match m with
  | (log, Ok a) => let '(log', r) := k a in (log ++ log', r)
  | (log, Raise e) => (log, Raise e)
  end.

Definition io_lift {A : Type} (r : result A) : IO A := ([], r).
Definition io_emit (ev : IOEvent) : IO unit := ([ev], Ok tt).
Definition io_call {A : Type} (ev : IOEvent) (r : result A) : IO A := ([ev], r).

Declare Scope io_scope.
Delimit Scope io_scope with io.
Notation "x <- e ;; k" := (io_bind e (fun x => k))
  (at level 61, e at next level, right associativity) : io_scope.

Section Loading.

Context {storage : Storage}.

(** [search_for_max_iteration(folder)] *)
Definition search_for_max_iteration (folder : string) : IO Z :=
  (names <- io_call (IoListdir folder) (os_listdir folder) ;;
   saved_iters <-
     io_lift (comprehension
                (fun fname => py_int (last_item (split_on "_" fname))) names) ;;
   io_lift (py_max saved_iters))%io.

(** [populate_modules]: the iteration it settles on and the field it
    loads, which it leaves in [self.load_iteration] and
    [self.gaussian_model]. *)
Definition populate_modules
  (config : GaussianSplattingModelConfig) (model_path : option string)
  (load_iteration : Z) : IO (Z * GaussianSplattingField) :=
  ((* get iteration *)
   load_iteration <-
     (if Z.eqb load_iteration (-1) then
        folder <- io_lift (os_path_join model_path ["point_cloud"]) ;;
        search_for_max_iteration folder
      else io_lift (Ok load_iteration)) ;;
   _ <- io_emit (IoPrint ("Loading trained model at iteration "
                          ++ py_str_int load_iteration)) ;;
   (* load gaussian model *)
   path <- io_lift (os_path_join model_path
                      ["point_cloud";
                       ("iteration_" ++ py_str_int load_iteration)%string;
                       "point_cloud.ply"]) ;;
   gaussian_model <-
     io_call (IoLoadPly path) (load_ply (cfg_sh_degree config) path) ;;
   io_lift (Ok (load_iteration, gaussian_model)))%io.

End Loading.

(** ** Vocabulary of the loading properties *)

(** The iteration a directory entry stands for, as line 105 reads it. *)
Definition iteration_of_fname (fname : string) : result Z :=
  py_int (last_item (split_on "_" fname)).

(** The entry a prefix and an iteration spell. *)
Definition entry_name (pn : string * Z) : string :=
  (fst pn ++ String "_" (py_str_int (snd pn)))%string.

(** The file [populate_modules] loads for an iteration. *)
Definition iteration_path (model_path : string) (n : Z) : string :=
  fold_left join_step
    ["point_cloud"; ("iteration_" ++ py_str_int n)%string; "point_cloud.ply"]
    model_path.

Definition loading_line (n : Z) : IOEvent :=
  IoPrint ("Loading trained model at iteration " ++ py_str_int n).

(** What loading yields once the iteration [n] is settled. *)
Definition loaded {storage : Storage}
  (config : GaussianSplattingModelConfig) (model_path : string) (n : Z)
  : result (Z * GaussianSplattingField) :=
  match load_ply (cfg_sh_degree config) (iteration_path model_path n) with
  | Ok gm => Ok (n, gm)
  | Raise e => Raise e
  end.

Definition is_listing_event (ev : IOEvent) : bool :=
  match ev with IoListdir _ => true | _ => false end.

Definition is_loading_event (ev : IOEvent) : bool :=
  match ev with IoLoadPly _ => true | _ => false end.

(** ** Vocabulary of the rendering properties *)

(** A displayable value: NaN, or neither below 0 nor above 1. *)
Definition unit_interval_or_nan (x : f32) : Prop :=
  F32.is_nan x = true \/
  (F32.ltb x F32.zero = false /\ F32.ltb F32.one x = false).

(** The number of dimensions [t.squeeze()] keeps. *)
Definition squeezed_rank (t : Tensor) : nat := length (shape (squeeze t)).

Definition clean_keys : list string := ["rgb"; "depth"].

Definition compositing_keys : list string :=
  ["rgb"; "depth"; "backscatter"; "attenuation"; "direct"; "underwater_image"].

(** The steps common to both modes. *)
Definition frame_steps {ext : External}
  (self : GaussianSplatting) (bundle : RayBundle)
  (cam : GaussianSplattingCamera) (rr : RenderResults)
  (m rgb depth : Tensor) : Prop :=
  ns2gs_camera self (camera bundle) = Ok cam /\
  render cam (gaussian_model self) (pipeline_params self)
         (of_list (map F32.of_Z (bg_color self)))
         (scaling_modifier_slider self) None = Ok rr /\
  torch_max (rendered_depth rr) = Ok m /\
  permute [1; 2; 0]%nat (torch_clamp (render_ rr) F32.zero F32.one) = Ok rgb /\
  (exists nd, tensor_div (rendered_depth rr) m = Ok nd /\
              permute [1; 2; 0]%nat nd = Ok depth).

(** The steps of the compositing mode. *)
Definition compositing_steps (self : GaussianSplatting) (rr : RenderResults)
  (direct attenuation_map backscatter : Tensor)
  (od ob oa odr ou : Tensor) : Prop :=
  (exists at_net, at_model self = Some at_net /\
     at_forward at_net (unsqueeze0 (render_ rr))
                (unsqueeze0 (rendered_depth rr))
     = Ok (direct, attenuation_map)) /\
  (exists bs_net, bs_model self = Some bs_net /\
     bs_forward bs_net (unsqueeze0 (rendered_depth rr)) = Ok backscatter) /\
  (exists sum, tensor_add direct backscatter = Ok sum /\
     permute [1; 2; 0]%nat (squeeze (torch_clamp sum F32.zero F32.one))
     = Ok ou) /\
  permute [1; 2; 0]%nat (rendered_depth rr) = Ok od /\
  permute [1; 2; 0]%nat (squeeze backscatter) = Ok ob /\
  permute [1; 2; 0]%nat (squeeze attenuation_map) = Ok oa /\
  permute [1; 2; 0]%nat (squeeze direct) = Ok odr.

(** The arguments of a rasterizer call that leaves both the colours and
    the covariances to the kernel. *)
Definition raw_raster_args (pc : GaussianSplattingField) : RasterArgs :=
  {| means3D := get_xyz pc;
     means2D := screenspace_points pc;
     shs := Some (get_features pc);
     colors_precomp := None;
     opacities := get_opacity pc;
     scales := Some (get_scaling pc);
     rotations := Some (get_rotation pc);
     cov3D_precomp := None |}.

(** What [render] selects as the covariance input of the rasterizer. *)
Definition covariance_source_policy {ext : External}
  (cam : GaussianSplattingCamera) (pc : GaussianSplattingField)
  (pipe : PipelineParams) (sm : pyfloat) (oc : option Tensor) : Prop :=
  (compute_cov3D_python pipe = false ->
   forall args, raster_args_of cam pc pipe sm oc = Ok args ->
     scales args = Some (get_scaling pc) /\
     rotations args = Some (get_rotation pc) /\
     cov3D_precomp args = None) /\
  (compute_cov3D_python pipe = true ->
   forall args, raster_args_of cam pc pipe sm oc = Ok args ->
     scales args = None /\ rotations args = None /\
     exists c, get_covariance pc sm = Ok c /\ cov3D_precomp args = Some c) /\
  (compute_cov3D_python pipe = true ->
   forall e, get_covariance pc sm = Raise e ->
     raster_args_of cam pc pipe sm oc = Raise e).

(** The background tensor of a model is constantly [x]. *)
Definition background_is (self : GaussianSplatting) (x : f32) : Prop :=
  shape (of_list (map F32.of_Z (bg_color self))) = [3%nat] /\
  forall k, (k < 3)%nat ->
    item (of_list (map F32.of_Z (bg_color self))) [k] = x.

(** The first two lines the constructor prints before it loads. *)
Definition loading_banner (bsp atp : option string) : list Event :=
  [EvPrint ("Loading backscatter model " ++ py_str bsp);
   EvPrint ("Loading attenuation model " ++ py_str atp)].

(** ** A directory tree for the examples *)

Module ExampleStorage.

(** A model directory with three saved iterations, and an empty one. *)
Definition storage : Storage :=
  {| os_listdir := fun folder =>
       if String.eqb folder "output/scene/point_cloud"
       then Ok ["iteration_7000"; "iteration_30000"; "iteration_15000"]
       else if String.eqb folder "output/empty/point_cloud"
       then Ok []
       else if String.eqb folder "output/stray/point_cloud"
       then Ok ["iteration_7000"; ".DS_Store"]
       else Raise (ExternalError "FileNotFoundError");
     load_ply := fun _ path =>
       if String.eqb path "output/scene/point_cloud/iteration_30000/point_cloud.ply"
          || String.eqb path "output/scene/point_cloud/iteration_7000/point_cloud.ply"
       then Ok Example.field
       else Raise (ExternalError "FileNotFoundError") |}.

End ExampleStorage.

(** ** Frames for the examples *)

Module ExampleFrames.

(** A depth frame with one NaN pixel. *)
Definition nan_depth : Tensor :=
  mkTensor [1; 2; 2]%nat
    (fun idx =>
       if Nat.eqb (nth 1 idx 0%nat) 0 && Nat.eqb (nth 2 idx 0%nat) 0
       then S754_nan else Example.ten).

(** A depth frame without pixels. *)
Definition empty_depth : Tensor :=
  mkTensor [1; 0; 2]%nat (fun _ => F32.zero).

(** A frame one pixel high. *)
Definition flat_image : Tensor :=
  mkTensor [3; 1; 2]%nat
    (fun idx => nth (nth 0 idx 0%nat) [F32.zero; F32.one; Example.two] F32.zero).

Definition flat_depth : Tensor :=
  mkTensor [1; 1; 2]%nat (fun _ => Example.ten).

Definition nan_ext : External :=
  Example.backend Example.frame_image Example.frame_radii nan_depth.

Definition empty_frame_ext : External :=
  Example.backend Example.frame_image [] empty_depth.

Definition flat_ext : External :=
  Example.backend flat_image Example.frame_radii flat_depth.

(** Two Gaussians with four coefficients per channel, declared of
    degree 0. *)
Definition wide_field : GaussianSplattingField :=
  {| get_xyz := get_xyz Example.field;
     get_opacity := get_opacity Example.field;
     get_scaling := get_scaling Example.field;
     get_rotation := get_rotation Example.field;
     get_features := mkTensor [2; 4; 3]%nat (fun _ => F32.one);
     active_sh_degree := 0;
     max_sh_degree := 0;
     get_covariance := get_covariance Example.field |}.

(** A pose that already carries its homogeneous row. *)
Definition homogeneous_pose : Cameras :=
  {| camera_to_worlds :=
       of_rows (map (map F32.of_Z)
                  [[1; 0; 0; 2]; [0; 1; 0; 3]; [0; 0; 1; 4]; [0; 0; 0; 1]]%Z);
     fx := SFone 53 1024;
     fy := SFone 53 1024;
     width := 2;
     height := 2 |}.

End ExampleFrames.

(** * Properties *)

(** ** The error result *)

Lemma bind_Ok_inv {A B : Type} (r : result A) (k : A -> result B) (b : B) :
  bind r k = Ok b -> exists a, r = Ok a /\ k a = Ok b.
Proof.
  destruct r as [a|e]; simpl; intros H; [exists a; auto | discriminate].
Qed.

Lemma bind_Raise_inv {A B : Type} (r : result A) (k : A -> result B) e :
  bind r k = Raise e -> r = Raise e \/ exists a, r = Ok a /\ k a = Raise e.
Proof.
  destruct r as [a|e']; simpl; intros H.
  - right; exists a; auto.
  - left; congruence.
Qed.

(** ** Tensor operations *)

Lemma in_range_length (s idx : list nat) :
  in_range s idx -> length idx = length s.
Proof.
  unfold in_range; induction 1; simpl; congruence.
Qed.

Lemma indices_in_range (s idx : list nat) :
  In idx (indices s) <-> in_range s idx.
Proof.
  unfold in_range; revert idx; induction s as [|d s IH]; intros idx; simpl.
  - split.
    + intros [<-|[]]; constructor.
    + intros H; inversion H; auto.
  - rewrite in_flat_map; split.
    + intros (i & Hi & Hin).
      apply in_map_iff in Hin as (r & <- & Hr).
      apply in_seq in Hi; constructor; [lia | now apply IH].
    + intros H; inversion H as [|i d' r s' Hlt Hr]; subst.
      exists i; split; [apply in_seq; lia |].
      apply in_map, IH, Hr.
Qed.

Lemma indices_nonempty (s : list nat) :
  Forall (fun d => 0 < d)%nat s -> indices s <> [].
Proof.
  intros H Hnil.
  assert (Hin : In (map (fun _ => 0%nat) s) (indices s)).
  { apply indices_in_range; unfold in_range; clear Hnil.
    induction H; simpl; constructor; auto. }
  rewrite Hnil in Hin; exact Hin.
Qed.

Lemma broadcast_zip_id (s idx : list nat) :
  in_range s idx -> broadcast_zip s idx = idx.
Proof.
  unfold in_range; induction 1 as [|i d idx s Hlt _ IH]; simpl; [reflexivity|].
  rewrite IH; destruct (Nat.eqb_spec d 1); [f_equal; lia | reflexivity].
Qed.

Lemma broadcast_index_id (s idx : list nat) :
  in_range s idx -> broadcast_index s idx = idx.
Proof.
  intros H; unfold broadcast_index.
  rewrite (in_range_length _ _ H), Nat.sub_diag; simpl.
  now apply broadcast_zip_id.
Qed.

Lemma broadcast_rev_same (r : list nat) : broadcast_rev r r = Some r.
Proof.
  induction r as [|a r IH]; simpl; [reflexivity|].
  now rewrite IH, Nat.eqb_refl.
Qed.

Lemma broadcast_shapes_same (s : list nat) : broadcast_shapes s s = Some s.
Proof.
  unfold broadcast_shapes.
  now rewrite broadcast_rev_same; simpl; rewrite rev_involutive.
Qed.

Lemma broadcast_shapes_scalar (s : list nat) : broadcast_shapes s [] = Some s.
Proof.
  unfold broadcast_shapes; simpl.
  assert (E : broadcast_rev (rev s) [] = Some (rev s))
    by (destruct (rev s); reflexivity).
  rewrite E; simpl; now rewrite rev_involutive.
Qed.

(** An element-wise operation on two tensors of one shape. *)
Lemma tensor_binop_same (op : f32 -> f32 -> f32) (a b : Tensor) :
  shape b = shape a ->
  exists t, tensor_binop op a b = Ok t /\ shape t = shape a /\
    forall idx, in_range (shape a) idx ->
      item t idx = op (item a idx) (item b idx).
Proof.
  intros Hs; unfold tensor_binop.
  rewrite Hs, broadcast_shapes_same.
  eexists; split; [reflexivity|]; split; [reflexivity|].
  intros idx Hr; simpl; now rewrite broadcast_index_id.
Qed.

(** An element-wise operation with a 0-dimensional right operand. *)
Lemma tensor_binop_scalar (op : f32 -> f32 -> f32) (a m : Tensor) :
  shape m = [] ->
  exists t, tensor_binop op a m = Ok t /\ shape t = shape a /\
    forall idx, in_range (shape a) idx ->
      item t idx = op (item a idx) (item m []).
Proof.
  intros Hs; unfold tensor_binop.
  rewrite Hs, broadcast_shapes_scalar.
  eexists; split; [reflexivity|]; split; [reflexivity|].
  intros idx Hr; simpl; rewrite broadcast_index_id by assumption.
  unfold broadcast_index; simpl; reflexivity.
Qed.

(** [permute(1, 2, 0)] turns channel-height-width into
    height-width-channel. *)
Lemma permute_120 (t : Tensor) (c h w : nat) :
  shape t = [c; h; w] ->
  exists t', permute [1; 2; 0]%nat t = Ok t' /\ shape t' = [h; w; c] /\
    forall i j k, item t' [i; j; k] = item t [k; i; j].
Proof.
  intros Hs; unfold permute; rewrite Hs; simpl.
  eexists; split; [reflexivity|]; split; reflexivity.
Qed.

(** [permute(1, 2, 0)] needs exactly three dimensions. *)
Lemma permute_120_rank (t t' : Tensor) :
  permute [1; 2; 0]%nat t = Ok t' -> length (shape t) = 3%nat.
Proof.
  unfold permute.
  destruct (is_permutation (length (shape t)) [1; 2; 0]%nat) eqn:E;
    [intros _ | discriminate].
  unfold is_permutation in E; apply andb_prop in E as [E _].
  apply Nat.eqb_eq in E; simpl in E; congruence.
Qed.

Lemma squeeze_batch (t : Tensor) (c h w : nat) :
  shape t = [1; c; h; w]%nat -> (2 <= c)%nat -> (2 <= h)%nat -> (2 <= w)%nat ->
  shape (squeeze t) = [c; h; w] /\
  forall i j k, item (squeeze t) [i; j; k] = item t [0; i; j; k]%nat.
Proof.
  intros Hs Hc Hh Hw; unfold squeeze; rewrite Hs; simpl.
  destruct (Nat.eqb_spec c 1); [lia|].
  destruct (Nat.eqb_spec h 1); [lia|].
  destruct (Nat.eqb_spec w 1); [lia|].
  simpl; split; reflexivity.
Qed.

(** ** [torch.max] *)

Lemma torch_max_shape (t m : Tensor) : torch_max t = Ok m -> shape m = [].
Proof.
  unfold torch_max; destruct (indices (shape t)); [discriminate|].
  intros H; inversion H; reflexivity.
Qed.

Lemma torch_max_nonempty (t : Tensor) :
  Forall (fun d => 0 < d)%nat (shape t) -> exists m, torch_max t = Ok m.
Proof.
  intros H; unfold torch_max.
  destruct (indices (shape t)) eqn:E.
  - now apply indices_nonempty in H.
  - eexists; reflexivity.
Qed.

Lemma fold_max_zero (f : list nat -> f32) (l : list (list nat)) (a : f32) :
  F32.is_zero a = true ->
  (forall i, In i l -> F32.is_zero (f i) = true) ->
  F32.is_zero (fold_left (fun acc i => F32.max acc (f i)) l a) = true.
Proof.
  revert a; induction l as [|i l IH]; intros a Ha Hl; simpl; [exact Ha|].
  apply IH; [|intros; apply Hl; now right].
  specialize (Hl i (or_introl eq_refl)).
  destruct a; try discriminate; destruct (f i); try discriminate; reflexivity.
Qed.

(** The maximum of a frame of zeros is a zero. *)
Lemma torch_max_all_zero (t m : Tensor) :
  (forall idx, in_range (shape t) idx -> F32.is_zero (item t idx) = true) ->
  torch_max t = Ok m -> F32.is_zero (item m []) = true.
Proof.
  intros Hz; unfold torch_max.
  destruct (indices (shape t)) as [|i0 rest] eqn:E; [discriminate|].
  intros H; inversion H; subst; simpl.
  apply fold_max_zero.
  - apply Hz, indices_in_range; rewrite E; now left.
  - intros i Hi; apply Hz, indices_in_range; rewrite E; now right.
Qed.

Lemma fold_max_nan (f : list nat -> f32) (l : list (list nat)) (a : f32) :
  F32.is_nan (fold_left (fun acc i => F32.max acc (f i)) l a) = false ->
  F32.is_nan a = false /\ forall i, In i l -> F32.is_nan (f i) = false.
Proof.
  revert a; induction l as [|i l IH]; intros a H; simpl in *.
  - split; [exact H | intros i []].
  - apply IH in H as [Hm Hl].
    unfold F32.max in Hm.
    destruct (F32.is_nan a) eqn:Ea; [congruence|].
    destruct (F32.is_nan (f i)) eqn:Ei; [congruence|].
    split; [reflexivity|]; intros j [<-|Hj]; auto.
Qed.

(** [torch.max] propagates NaN: a maximum that is a number was taken
    over numbers only. *)
Lemma torch_max_not_nan (t m : Tensor) :
  torch_max t = Ok m -> F32.is_nan (item m []) = false ->
  forall idx, in_range (shape t) idx -> F32.is_nan (item t idx) = false.
Proof.
  unfold torch_max.
  destruct (indices (shape t)) as [|i0 rest] eqn:E; [discriminate|].
  intros H; inversion H; subst; simpl; intros Hn idx Hr.
  apply fold_max_nan in Hn as [H0 Hl].
  apply indices_in_range in Hr; rewrite E in Hr.
  destruct Hr as [<-|Hr]; auto.
Qed.

(** ** Division in binary32 *)

Lemma div_zero_zero (a b : f32) :
  F32.is_zero a = true -> F32.is_zero b = true -> F32.div a b = S754_nan.
Proof.
  destruct a; try discriminate; destruct b; try discriminate; reflexivity.
Qed.

Lemma shr_1_nonneg (mrs : shr_record) :
  (0 <= shr_m mrs)%Z -> (0 <= shr_m (shr_1 mrs))%Z.
Proof.
  destruct mrs as [m r s]; simpl.
  destruct m as [|p|p]; [| destruct p | destruct p]; simpl; lia.
Qed.

Lemma iter_shr_1_nonneg (p : positive) (mrs : shr_record) :
  (0 <= shr_m mrs)%Z -> (0 <= shr_m (SpecFloat.iter_pos shr_1 p mrs))%Z.
Proof.
  revert mrs; induction p as [p IH|p IH|]; intros mrs H; simpl.
  - apply IH, IH, shr_1_nonneg, H.
  - apply IH, IH, H.
  - apply shr_1_nonneg, H.
Qed.

Lemma shr_fexp_nonneg (m e : Z) (l : location) :
  (0 <= m)%Z -> (0 <= shr_m (fst (shr_fexp F32.prec F32.emax m e l)))%Z.
Proof.
  intros H; unfold shr_fexp, shr.
  assert (H0 : (0 <= shr_m (shr_record_of_loc m l))%Z)
    by (destruct l as [|[]]; exact H).
  destruct (fexp F32.prec F32.emax (Zdigits2 m + e) - e)%Z; simpl; auto.
  now apply iter_shr_1_nonneg.
Qed.

Lemma round_nearest_even_nonneg (m : Z) (l : location) :
  (0 <= m)%Z -> (0 <= round_nearest_even m l)%Z.
Proof.
  intros H; destruct l as [|[]]; simpl; try lia.
  destruct (Z.even m); lia.
Qed.

(** Rounding a non-negative mantissa never produces NaN. *)
Lemma binary_round_aux_not_nan (sx : bool) (mx ex : Z) (lx : location) :
  (0 <= mx)%Z ->
  F32.is_nan (binary_round_aux F32.prec F32.emax sx mx ex lx) = false.
Proof.
  intros H; unfold binary_round_aux.
  pose proof (shr_fexp_nonneg _ ex lx H) as H1.
  destruct (shr_fexp F32.prec F32.emax mx ex lx) as [mrs' e']; simpl in H1.
  pose proof (round_nearest_even_nonneg _ (loc_of_shr_record mrs') H1) as H2.
  pose proof (shr_fexp_nonneg _ e' loc_Exact H2) as H3.
  destruct (shr_fexp F32.prec F32.emax _ e' loc_Exact) as [mrs'' e''].
  simpl in H3.
  destruct (shr_m mrs'') as [|p|p]; [reflexivity | | lia].
  destruct (e'' <=? F32.emax - F32.prec)%Z; reflexivity.
Qed.

(** A number divided by a finite non-zero number is not NaN. *)
Lemma div_by_finite_not_nan (x : f32) (s : bool) (m : positive) (e : Z) :
  F32.is_nan x = false ->
  F32.is_nan (F32.div x (S754_finite s m e)) = false.
Proof.
  destruct x as [sx|sx| |sx mx ex]; try reflexivity; [discriminate|].
  intros _; unfold F32.div, SFdiv.
  destruct (SFdiv_core_binary F32.prec F32.emax (Z.pos mx) ex (Z.pos m) e)
    as [[mz ez] lz] eqn:E.
  apply binary_round_aux_not_nan.
  unfold SFdiv_core_binary in E.
  set (s' := (ex - e - _)%Z) in E.
  set (m' := match s' with Z0 => _ | Zpos _ => _ | Zneg _ => _ end) in E.
  assert (Hm' : (0 <= m')%Z).
  { subst m'; destruct s'; try lia.
    apply Z.shiftl_nonneg; lia. }
  pose proof (Z.div_pos m' (Z.pos m) Hm' (Pos2Z.is_pos m)) as Hq.
  unfold Z.div in Hq.
  destruct (Z.div_eucl m' (Z.pos m)) as [q r]; inversion E; subst; exact Hq.
Qed.

(** ** Multiplication by -1 *)

Lemma mul_minus_one (x : f32) :
  valid_binary F32.prec F32.emax x = true ->
  F32.mul x F32.minus_one = SFopp x.
Proof.
  destruct x as [s|s| |s m e]; intros Hv.
  - destruct s; reflexivity.
  - destruct s; reflexivity.
  - reflexivity.
  - unfold valid_binary, bounded, canonical_mantissa in Hv.
    apply andb_prop in Hv as [Hc Hb].
    apply Z.eqb_eq in Hc; apply Z.leb_le in Hb.
    unfold F32.mul, F32.minus_one, SFmul, SFopp.
    rewrite Pos.mul_comm.
    change (8388608 * m)%positive
      with (m~0~0~0~0~0~0~0~0~0~0~0~0~0~0~0~0~0~0~0~0~0~0~0)%positive.
    unfold binary_round_aux, shr_fexp.
    cbn [Zdigits2 digits2_pos].
    rewrite !Pos2Z.inj_succ.
    match goal with
    | |- context [shr _ (e + -23)%Z ?n] =>
        replace n with 23%Z
    end.
    2:{ match goal with
        | |- context [fexp _ _ ?a] =>
            replace a with (Z.pos (digits2_pos m) + e)%Z by lia
        end.
        rewrite Hc; lia. }
    cbv [shr SpecFloat.iter_pos shr_1 shr_record_of_loc orb shr_m
         loc_of_shr_record round_nearest_even].
    replace (e + -23 + 23)%Z with e by lia.
    cbn [Zdigits2]; rewrite Hc, Z.sub_diag.
    apply Z.leb_le in Hb; rewrite Hb.
    destruct s; reflexivity.
Qed.

(** ** [numpy.linalg.inv] *)

(** The only error of the inverse is [LinAlgError]. *)
Lemma np_linalg_inv_raises {ext : External} (a : Tensor) e :
  np_linalg_inv a = Raise e -> e = LinAlgError.
Proof.
  unfold np_linalg_inv.
  destruct (shape a) as [|n [|m [|]]]; try (intros H; inversion H; reflexivity).
  destruct (Nat.eqb n m); [|intros H; inversion H; reflexivity].
  destruct (umath_linalg_inv (to_rows a)); intros H; inversion H; reflexivity.
Qed.


(** On a square matrix the outcome is LAPACK's. *)
Lemma np_linalg_inv_square_spec {ext : External} (a : Tensor) (n : nat) :
  shape a = [n; n] ->
  np_linalg_inv a
  = match umath_linalg_inv (to_rows a) with
    | Some rows => Ok (mkTensor [n; n] (item (of_rows rows)))
    | None => Raise LinAlgError
    end.
Proof.
  unfold np_linalg_inv; intros ->; now rewrite Nat.eqb_refl.
Qed.

(** ** The corrected camera-to-world matrix *)

Lemma ns2gs_camera_corrected {ext : External} self ns_camera :
  ns2gs_camera self ns_camera =
  (c2w <- corrected_c2w self ns_camera ;;
   w2c <- np_linalg_inv c2w ;;
   T <- slice_column 3 3 w2c ;;
   Ok {| R := np_transpose (slice_block 3 3 w2c);
         T := T;
         cam_width := width ns_camera;
         cam_height := height ns_camera;
         FoVx := focal2fov (fx ns_camera) (width ns_camera);
         FoVy := focal2fov (fy ns_camera) (height ns_camera) |}).
Proof.
  unfold ns2gs_camera, corrected_c2w.
  destruct (torch_concatenate0 _ _) as [m0|e]; [|reflexivity]; cbn [bind].
  destruct (match orientation_transform self with
            | Some o => torch_matmul o m0
            | None => Ok m0
            end) as [m1|e]; [|reflexivity]; cbn [bind].
  destruct (imul_block 0 3 1 3 F32.minus_one m1); reflexivity.
Qed.

(** The errors of the steps before the inversion. *)
Lemma corrected_c2w_raises self ns_camera e :
  corrected_c2w self ns_camera = Raise e ->
  e = RuntimeError \/ e = IndexError.
Proof.
  unfold corrected_c2w; intros H.
  apply bind_Raise_inv in H as [H|(m0 & _ & H)].
  - unfold torch_concatenate0 in H.
    destruct (shape (camera_to_worlds ns_camera)) as [|[|n1] [|a r1]];
      destruct (shape (of_rows [map F32.of_Z [0; 0; 0; 1]%Z])) as [|[|n2] [|b r2]];
      try destruct (list_eqb _ _); inversion H; auto.
  - apply bind_Raise_inv in H as [H|(m1 & _ & H)].
    + destruct (orientation_transform self) as [o|]; [|discriminate].
      unfold torch_matmul in H.
      destruct (shape o) as [|n [|k [|]]]; try (inversion H; auto).
      destruct (shape m0) as [|k' [|m [|]]]; try (inversion H; auto).
      destruct (Nat.eqb k k'); inversion H; auto.
    + unfold imul_block in H.
      destruct (Nat.ltb _ _); inversion H; auto.
Qed.

(** ** Output assembly, step by step *)

Section OutputsOfAFrame.

Context {ext : External}.
Variables (self : GaussianSplatting) (bundle : RayBundle).
Variables (cam : GaussianSplattingCamera) (rr : RenderResults).
Variables (C H W : nat).

Hypothesis Hcam : ns2gs_camera self (camera bundle) = Ok cam.
Hypothesis Hrender :
  render cam (gaussian_model self) (pipeline_params self)
         (of_list (map F32.of_Z (bg_color self)))
         (scaling_modifier_slider self) None = Ok rr.
Hypothesis Himage : shape (render_ rr) = [C; H; W].
Hypothesis Hdepth : shape (rendered_depth rr) = [1%nat; H; W].
Hypothesis HH : (0 < H)%nat.
Hypothesis HW : (0 < W)%nat.

Lemma depth_frame_max : exists m, torch_max (rendered_depth rr) = Ok m.
Proof.
  apply torch_max_nonempty; rewrite Hdepth.
  repeat constructor; assumption.
Qed.

Lemma clean_outputs :
  do_seathru self = false ->
  exists m rgb depth,
    torch_max (rendered_depth rr) = Ok m /\
    get_outputs_for_camera_ray_bundle self bundle
      = Ok [("rgb", rgb); ("depth", depth)] /\
    is_rgb_of (render_ rr) C H W rgb /\ is_normalized_depth_of (rendered_depth rr) H W m depth.
Proof.
  intros Hoff.
  destruct depth_frame_max as [m Hm].
  destruct (@permute_120 (torch_clamp (render_ rr) F32.zero F32.one) C H W Himage)
    as (rgb & Hrgb & Hrs & Hri).
  destruct (@tensor_binop_scalar F32.div (rendered_depth rr) m
              (torch_max_shape _ _ Hm)) as (nd & Hnd & Hns & Hni).
  rewrite Hdepth in Hns.
  destruct (permute_120 nd _ _ _ Hns) as (depth & Hd & Hds & Hdi).
  exists m, rgb, depth; split; [exact Hm|]; split; [|split].
  - unfold get_outputs_for_camera_ray_bundle.
    rewrite Hcam; cbn [bind]; rewrite Hrender; cbn [bind].
    rewrite Hm; cbn [bind]; rewrite Hrgb; cbn [bind].
    fold tensor_div in Hnd; rewrite Hnd; cbn [bind]; rewrite Hd; cbn [bind].
    now rewrite Hoff.
  - split; [exact Hrs | intros; now rewrite Hri].
  - split; [exact Hds|]; intros i j Hi Hj.
    rewrite Hdi; apply Hni; rewrite Hdepth.
    repeat constructor; auto.
Qed.

Variables (at_net : AttenuateNet) (bs_net : BackscatterNet).
Variables (direct attenuation_map backscatter : Tensor).
Variables (Cd Ca : nat).

Hypothesis Hat : at_model self = Some at_net.
Hypothesis Hbs : bs_model self = Some bs_net.
Hypothesis Hat_run :
  at_forward at_net (unsqueeze0 (render_ rr)) (unsqueeze0 (rendered_depth rr))
  = Ok (direct, attenuation_map).
Hypothesis Hbs_run :
  bs_forward bs_net (unsqueeze0 (rendered_depth rr)) = Ok backscatter.
Hypothesis Hdirect : shape direct = [1%nat; Cd; H; W].
Hypothesis Hbackscatter : shape backscatter = [1%nat; Cd; H; W].
Hypothesis Hattenuation : shape attenuation_map = [1%nat; Ca; H; W].
Hypothesis HCd : (2 <= Cd)%nat.
Hypothesis HCa : (2 <= Ca)%nat.
Hypothesis HH2 : (2 <= H)%nat.
Hypothesis HW2 : (2 <= W)%nat.

Lemma unbatch (c : nat) (src : Tensor) :
  shape src = [1%nat; c; H; W] -> (2 <= c)%nat ->
  exists out, permute [1; 2; 0]%nat (squeeze src) = Ok out /\
              is_unbatched H W c src out.
Proof.
  intros Hs Hc.
  destruct (squeeze_batch src _ _ _ Hs Hc HH2 HW2) as [Hq Hqi].
  destruct (permute_120 _ _ _ _ Hq) as (out & Ho & Hos & Hoi).
  exists out; split; [exact Ho|]; split; [exact Hos|].
  intros; now rewrite Hoi, Hqi.
Qed.

Lemma seathru_outputs :
  do_seathru self = true ->
  exists rgb depth b a d u,
    get_outputs_for_camera_ray_bundle self bundle
      = Ok [("rgb", rgb); ("depth", depth); ("backscatter", b);
            ("attenuation", a); ("direct", d); ("underwater_image", u)] /\
    is_rgb_of (render_ rr) C H W rgb /\
    (shape depth = [H; W; 1%nat] /\
     forall i j, item depth [i; j; 0%nat] = item (rendered_depth rr) [0%nat; i; j]) /\
    is_unbatched H W Cd backscatter b /\
    is_unbatched H W Ca attenuation_map a /\
    is_unbatched H W Cd direct d /\
    (shape u = [H; W; Cd] /\
     forall i j k, (i < H)%nat -> (j < W)%nat -> (k < Cd)%nat ->
       item u [i; j; k] =
       F32.clamp F32.zero F32.one
         (F32.add (item direct [0%nat; k; i; j])
                  (item backscatter [0%nat; k; i; j]))).
Proof.
  intros Hon.
  destruct depth_frame_max as [m Hm].
  destruct (@permute_120 (torch_clamp (render_ rr) F32.zero F32.one) C H W Himage)
    as (rgb & Hrgb & Hrs & Hri).
  destruct (@tensor_binop_scalar F32.div (rendered_depth rr) m
              (torch_max_shape _ _ Hm)) as (nd & Hnd & Hns & Hni).
  rewrite Hdepth in Hns.
  destruct (permute_120 nd _ _ _ Hns) as (nd' & Hd & _ & _).
  destruct (@tensor_binop_same F32.add direct backscatter
              (eq_trans Hbackscatter (eq_sym Hdirect)))
    as (sum & Hsum & Hss & Hsi).
  rewrite Hdirect in Hss, Hsi.
  destruct (permute_120 _ _ _ _ Hdepth) as (depth & Hdp & Hdps & Hdpi).
  destruct (unbatch _ backscatter Hbackscatter HCd) as (b & Hb & Hbu).
  destruct (unbatch _ attenuation_map Hattenuation HCa) as (a & Ha & Hau).
  destruct (unbatch _ direct Hdirect HCd) as (d & Hdd & Hdu).
  destruct (@unbatch Cd (torch_clamp sum F32.zero F32.one) Hss HCd)
    as (u & Hu & Hus & Hui).
  exists rgb, depth, b, a, d, u; split.
  - unfold get_outputs_for_camera_ray_bundle.
    rewrite Hcam; cbn [bind]; rewrite Hrender; cbn [bind].
    rewrite Hm; cbn [bind]; rewrite Hrgb; cbn [bind].
    fold tensor_div in Hnd; rewrite Hnd; cbn [bind]; rewrite Hd; cbn [bind].
    rewrite Hon, Hat; cbn [bind get_attr]; rewrite Hat_run; cbn [bind].
    rewrite Hbs; cbn [bind get_attr]; rewrite Hbs_run; cbn [bind].
    fold tensor_add in Hsum; rewrite Hsum; cbn [bind].
    rewrite Hdp; cbn [bind]; rewrite Hb; cbn [bind]; rewrite Ha; cbn [bind].
    rewrite Hdd; cbn [bind]; rewrite Hu; cbn [bind]; reflexivity.
  - split; [split; [exact Hrs | intros; now rewrite Hri] |].
    split; [split; [exact Hdps | intros; apply Hdpi] |].
    split; [exact Hbu|]; split; [exact Hau|]; split; [exact Hdu|].
    split; [exact Hus|].
    intros i j k Hi Hj Hk; rewrite Hui; simpl.
    f_equal; apply Hsi; repeat constructor; auto; lia.
Qed.

End OutputsOfAFrame.

(** ** What the constructor leaves in the model *)

Lemma init_flag {ext : External} cfg mp li ot bsp atp log self :
  __init__ cfg mp li ot bsp atp = (log, Ok self) ->
  do_seathru self = ne_literal_None atp && ne_literal_None bsp.
Proof.
  unfold __init__.
  destruct (Model_init cfg mp li) as [gm|e]; [|intros H; inversion H].
  destruct (ne_literal_None atp && ne_literal_None bsp) eqn:E.
  - destruct (load_seathru bsp atp) as [log' [[a b]|e]]; simpl;
      intros H; inversion H; subst; simpl; reflexivity.
  - intros H; inversion H; subst; reflexivity.
Qed.

(** The two networks are assigned together, exactly when the flag is set. *)
Lemma init_models {ext : External} cfg mp li ot bsp atp log self :
  __init__ cfg mp li ot bsp atp = (log, Ok self) ->
  (do_seathru self = true /\ at_model self <> None /\ bs_model self <> None)
  \/ (do_seathru self = false /\ at_model self = None /\ bs_model self = None).
Proof.
  unfold __init__.
  destruct (Model_init cfg mp li) as [gm|e]; [|intros H; inversion H].
  destruct (ne_literal_None atp && ne_literal_None bsp) eqn:E.
  - destruct (load_seathru bsp atp) as [log' [[a b]|e]]; simpl;
      intros H; inversion H; subst; simpl.
    left; repeat split; discriminate.
  - intros H; inversion H; subst; simpl; right; auto.
Qed.

(** ** Claims about the output bundle *)

(** C3: a model constructed with either compositing network unset
    answers a render call with a dictionary whose keys are exactly rgb
    and depth; backscatter, attenuation, direct and underwater_image are
    absent. *)
Theorem unset_model_returns_rgb_and_depth
  {ext : External} cfg mp li ot bsp atp log self bundle cam rr (C H W : nat) :
  __init__ cfg mp li ot bsp atp = (log, Ok self) ->
  at_model self = None \/ bs_model self = None ->
  ns2gs_camera self (camera bundle) = Ok cam ->
  render cam (gaussian_model self) (pipeline_params self)
         (of_list (map F32.of_Z (bg_color self)))
         (scaling_modifier_slider self) None = Ok rr ->
  shape (render_ rr) = [C; H; W] ->
  shape (rendered_depth rr) = [1%nat; H; W] ->
  (0 < H)%nat -> (0 < W)%nat ->
  exists out,
    get_outputs_for_camera_ray_bundle self bundle = Ok out /\
    only_rgb_and_depth out.
Proof.
  intros Hinit Hunset Hcam Hrender Hi Hd HH HW.
  assert (Hoff : do_seathru self = false).
  { destruct (init_models _ _ _ _ _ _ _ _ Hinit) as [(_ & Ha & Hb)|(Hf & _)];
      [destruct Hunset; contradiction | exact Hf]. }
  destruct (clean_outputs _ _ _ _ _ _ _ Hcam Hrender Hi Hd HH HW Hoff)
    as (m & rgb & depth & _ & Hout & _).
  exists [("rgb", rgb); ("depth", depth)]; split; [exact Hout|].
  unfold only_rgb_and_depth; simpl; repeat split; try reflexivity.
  - intros [<-|[<-|[]]]; auto.
  - intros [->| ->]; auto.
Qed.

(** C2, as amended: when underwater compositing is disabled, the depth
    image of the bundle is the raw rendered depth divided by the maximum
    depth of the frame, in height-by-width-by-channel layout; a pixel of
    raw depth 5.0 in a frame of maximum 10.0 comes out as exactly 0.5. *)
Theorem clean_depth_is_normalized
  {ext : External} self bundle cam rr m (C H W : nat) :
  ns2gs_camera self (camera bundle) = Ok cam ->
  render cam (gaussian_model self) (pipeline_params self)
         (of_list (map F32.of_Z (bg_color self)))
         (scaling_modifier_slider self) None = Ok rr ->
  shape (render_ rr) = [C; H; W] ->
  shape (rendered_depth rr) = [1%nat; H; W] ->
  (0 < H)%nat -> (0 < W)%nat ->
  do_seathru self = false ->
  torch_max (rendered_depth rr) = Ok m ->
  returns_normalized_depth self bundle (rendered_depth rr) m H W.
Proof.
  intros Hcam Hrender Hi Hd HH HW Hoff Hm.
  destruct (clean_outputs _ _ _ _ _ _ _ Hcam Hrender Hi Hd HH HW Hoff)
    as (m' & rgb & depth & Hm' & Hout & _ & Hds & Hdi).
  assert (m' = m) by congruence; subst m'.
  exists [("rgb", rgb); ("depth", depth)], depth.
  split; [exact Hout|]; split; [reflexivity|]; split; [exact Hds|].
  split; [exact Hdi|].
  intros i j Hlt Hlt' H5 H10; rewrite Hdi, H5, H10 by assumption.
  reflexivity.
Qed.

(** With compositing enabled the depth entry is the raw depth, only
    re-ordered. *)
Lemma seathru_depth_is_raw
  {ext : External} self bundle cam rr (C H W : nat)
  at_net bs_net direct attenuation_map backscatter (Cd Ca : nat) :
  ns2gs_camera self (camera bundle) = Ok cam ->
  render cam (gaussian_model self) (pipeline_params self)
         (of_list (map F32.of_Z (bg_color self)))
         (scaling_modifier_slider self) None = Ok rr ->
  shape (render_ rr) = [C; H; W] ->
  shape (rendered_depth rr) = [1%nat; H; W] ->
  at_model self = Some at_net ->
  bs_model self = Some bs_net ->
  at_forward at_net (unsqueeze0 (render_ rr)) (unsqueeze0 (rendered_depth rr))
    = Ok (direct, attenuation_map) ->
  bs_forward bs_net (unsqueeze0 (rendered_depth rr)) = Ok backscatter ->
  shape direct = [1%nat; Cd; H; W] ->
  shape backscatter = [1%nat; Cd; H; W] ->
  shape attenuation_map = [1%nat; Ca; H; W] ->
  (2 <= Cd)%nat -> (2 <= Ca)%nat -> (2 <= H)%nat -> (2 <= W)%nat ->
  do_seathru self = true ->
  exists out depth,
    get_outputs_for_camera_ray_bundle self bundle = Ok out /\
    lookup "depth" out = Some depth /\
    forall i j, item depth [i; j; 0%nat] = item (rendered_depth rr) [0%nat; i; j].
Proof.
  intros Hcam Hrender Hi Hd Hat Hbs Har Hbr Hds Hbss Has HCd HCa HH HW Hon.
  destruct (seathru_outputs _ _ _ _ _ _ _ Hcam Hrender Hi Hd ltac:(lia) ltac:(lia)
              _ _ _ _ _ _ _ Hat Hbs Har Hbr Hds Hbss Has HCd HCa HH HW Hon)
    as (rgb & depth & b & a & d & u & Hout & _ & (_ & Hdi) & _).
  eexists; exists depth; split; [exact Hout|]; split; [reflexivity | exact Hdi].
Qed.


(** C9, as amended: with compositing disabled the division by the
    frame maximum is unguarded.  When the raw depth is zero at every
    pixel the maximum is zero and every pixel of the returned normalized
    depth is NaN, not zero; when the maximum is a finite positive number
    every returned pixel is a number. *)
Theorem depth_normalization_unguarded
  {ext : External} self bundle cam rr (C H W : nat) :
  ns2gs_camera self (camera bundle) = Ok cam ->
  render cam (gaussian_model self) (pipeline_params self)
         (of_list (map F32.of_Z (bg_color self)))
         (scaling_modifier_slider self) None = Ok rr ->
  shape (render_ rr) = [C; H; W] ->
  shape (rendered_depth rr) = [1%nat; H; W] ->
  (0 < H)%nat -> (0 < W)%nat ->
  do_seathru self = false ->
  ((forall i j, (i < H)%nat -> (j < W)%nat ->
      F32.is_zero (item (rendered_depth rr) [0%nat; i; j]) = true) ->
   returns_nan_depth self bundle H W)
  /\
  (forall m mx ex,
      torch_max (rendered_depth rr) = Ok m ->
      item m [] = S754_finite false mx ex ->
      returns_defined_depth self bundle H W).
Proof.
  intros Hcam Hrender Hi Hd HH HW Hoff.
  destruct (clean_outputs _ _ _ _ _ _ _ Hcam Hrender Hi Hd HH HW Hoff)
    as (m & rgb & depth & Hm & Hout & _ & Hds & Hdi).
  split.
  - intros Hz.
    exists [("rgb", rgb); ("depth", depth)], depth.
    split; [exact Hout|]; split; [reflexivity|].
    intros i j Hlt Hlt'.
    assert (E : item depth [i; j; 0%nat] = S754_nan).
    { rewrite Hdi by assumption; apply div_zero_zero; [now apply Hz|].
      apply (torch_max_all_zero (rendered_depth rr)); [|exact Hm].
      rewrite Hd; intros idx Hr.
      inversion Hr as [|i0 d0 r0 s0 H0 Hr0]; subst.
      inversion Hr0 as [|i1 d1 r1 s1 H1 Hr1]; subst.
      inversion Hr1 as [|i2 d2 r2 s2 H2 Hr2]; subst.
      inversion Hr2; subst.
      assert (i0 = 0%nat) by lia; subst; now apply Hz. }
    rewrite E; split; reflexivity.
  - intros m' mx ex Hm' Hfin.
    assert (m' = m) by congruence; subst m'.
    exists [("rgb", rgb); ("depth", depth)], depth.
    split; [exact Hout|]; split; [reflexivity|].
    intros i j Hlt Hlt'.
    rewrite Hdi, Hfin by assumption.
    apply div_by_finite_not_nan.
    apply (torch_max_not_nan _ _ Hm); [now rewrite Hfin|].
    rewrite Hd; repeat constructor; auto.
Qed.

(** ** Claims about [render] *)

(** C5: the visibility filter [render] returns is the element-wise test
    radii > 0 on the radii the rasterizer returned: a Gaussian of
    positive radius is visible, one of radius zero is not. *)
Theorem render_visibility_filter
  {ext : External} cam pc pipe bg sm oc args img rad dep :
  raster_args_of cam pc pipe sm oc = Ok args ->
  GaussianRasterizer (raster_settings_of cam pc pipe bg sm) args
    = Ok (img, rad, dep) ->
  exists rr,
    render cam pc pipe bg sm oc = Ok rr /\
    radii rr = rad /\
    visibility_filter rr = map (fun r => (0 <? r)%Z) rad /\
    visibility_is_positive_radius rad (visibility_filter rr).
Proof.
  intros Hargs Hrast.
  eexists; split; [|split; [|split]].
  - unfold render; rewrite Hargs; cbn [bind]; rewrite Hrast; reflexivity.
  - reflexivity.
  - reflexivity.
  - simpl; split; [now rewrite length_map|].
    intros i Hi.
    assert (E : nth i (map (fun r => (0 <? r)%Z) rad) false
                = (0 <? nth i rad 0)%Z).
    { change false with ((fun r => (0 <? r)%Z) 0%Z) at 1.
      apply map_nth. }
    rewrite E; repeat split.
    + intros Hpos; now apply Z.ltb_lt.
    + intros ->; reflexivity.
Qed.

(** ** The claims on the reference backend *)

Lemma unwrap_ok {A : Type} (d : A) (r : result A) :
  is_ok r = true -> r = Ok (Example.unwrap d r).
Proof.
  destruct r; [reflexivity | discriminate].
Qed.

Ltac run := vm_compute; reflexivity.
Ltac ran := apply unwrap_ok; run.

Lemma construct_clean_ok (e : External) :
  is_ok (snd (Example.construct e (Some "None") (Some "None"))) = true ->
  Example.construct e (Some "None") (Some "None")
  = ([], Ok (Example.clean_model e)).
Proof.
  intros H; unfold Example.clean_model.
  rewrite <- (unwrap_ok _ _ H).
  rewrite (surjective_pairing (Example.construct e _ _)) at 1.
  f_equal.
  unfold Example.construct, __init__.
  destruct (Model_init _ _ _); reflexivity.
Qed.

Lemma unset_model_returns_rgb_and_depth_witness :
  exists out,
    @get_outputs_for_camera_ray_bundle Example.ext
      (Example.clean_model Example.ext) Example.bundle = Ok out /\
    only_rgb_and_depth out.
Proof.
  apply (@unset_model_returns_rgb_and_depth Example.ext
           Example.cfg (Some "output/scene") (-1)%Z None
           (Some "None") (Some "None") []
           (Example.clean_model Example.ext) Example.bundle
           (Example.camera_of Example.ext (Example.clean_model Example.ext))
           (Example.results_of Example.ext (Example.clean_model Example.ext))
           3 2 2).
  - apply construct_clean_ok; run.
  - left; run.
  - ran.
  - ran.
  - run.
  - run.
  - lia.
  - lia.
Defined.

Lemma clean_depth_is_normalized_witness :
  returns_normalized_depth (ext := Example.ext)
    (Example.clean_model Example.ext) Example.bundle
    (rendered_depth
       (Example.results_of Example.ext (Example.clean_model Example.ext)))
    (scalar Example.ten) 2 2.
Proof.
  apply (@clean_depth_is_normalized Example.ext
           (Example.clean_model Example.ext) Example.bundle
           (Example.camera_of Example.ext (Example.clean_model Example.ext))
           (Example.results_of Example.ext (Example.clean_model Example.ext))
           (scalar Example.ten) 3 2 2).
  - ran.
  - ran.
  - run.
  - run.
  - lia.
  - lia.
  - run.
  - run.
Defined.


(** C2 fails as stated: with compositing enabled the depth entry of the
    example frame, whose maximum is 10.0, is 5.0 at the pixel of raw
    depth 5.0 and not 0.5. *)
Lemma seathru_depth_not_normalized :
  do_seathru (Example.seathru_model Example.ext) = true /\
  torch_max Example.frame_depth = Ok (scalar Example.ten) /\
  item Example.frame_depth [0; 0; 1]%nat = Example.five /\
  ~ returns_normalized_depth (ext := Example.ext)
      (Example.seathru_model Example.ext) Example.bundle
      Example.frame_depth (scalar Example.ten) 2 2.
Proof.
  split; [run|]; split; [run|]; split; [run|].
  intros (out & depth & Hout & Hl & _ & Hdiv & _).
  destruct (@seathru_depth_is_raw Example.ext
           (Example.seathru_model Example.ext) Example.bundle
           (Example.camera_of Example.ext (Example.seathru_model Example.ext))
           (Example.results_of Example.ext (Example.seathru_model Example.ext))
           3 2 2 Example.attenuate_net Example.backscatter_net
           (unsqueeze0 Example.frame_image) (unsqueeze0 Example.frame_image)
           (mkTensor [1; 3; 2; 2]%nat (fun _ => Example.quarter)) 3 3)
    as (out' & depth' & Hout' & Hl' & Hraw);
    [ran | ran | run | run | run | run | reflexivity | reflexivity
    | reflexivity | reflexivity | reflexivity | lia | lia | lia | lia | run |].
  assert (out' = out) by congruence; subst out'.
  assert (depth' = depth) by congruence; subst depth'.
  specialize (Hdiv 0%nat 1%nat ltac:(lia) ltac:(lia)).
  rewrite Hraw in Hdiv.
  vm_compute in Hdiv; discriminate Hdiv.
Qed.

Lemma depth_normalization_unguarded_witness :
  returns_nan_depth (ext := Example.empty_ext)
    (Example.clean_model Example.empty_ext) Example.bundle 2 2
  /\
  returns_defined_depth (ext := Example.ext)
    (Example.clean_model Example.ext) Example.bundle 2 2.
Proof.
  split.
  - apply (@depth_normalization_unguarded Example.empty_ext
             (Example.clean_model Example.empty_ext) Example.bundle
             (Example.camera_of Example.empty_ext
                (Example.clean_model Example.empty_ext))
             (Example.results_of Example.empty_ext
                (Example.clean_model Example.empty_ext))
             3 2 2);
      [ran | ran | run | run | lia | lia | run |].
    intros i j _ _; reflexivity.
  - apply (proj2 (@depth_normalization_unguarded Example.ext
             (Example.clean_model Example.ext) Example.bundle
             (Example.camera_of Example.ext (Example.clean_model Example.ext))
             (Example.results_of Example.ext (Example.clean_model Example.ext))
             3 2 2
             ltac:(ran) ltac:(ran)
             ltac:(run) ltac:(run) ltac:(lia) ltac:(lia) ltac:(run))
             (scalar Example.ten) 10485760%positive (-20)%Z).
    + run.
    + run.
Defined.

(** C9 fails as stated: with compositing enabled the quotient is
    computed and dropped, and the depth entry of a frame of zeros is the
    frame itself: zero at every pixel, not NaN. *)
Lemma seathru_zero_depth_is_zero :
  do_seathru (Example.seathru_model Example.empty_ext) = true /\
  (forall i j, (i < 2)%nat -> (j < 2)%nat ->
     F32.is_zero (item Example.zero_depth [0; i; j]%nat) = true) /\
  (exists out depth,
     get_outputs_for_camera_ray_bundle (ext := Example.empty_ext)
       (Example.seathru_model Example.empty_ext) Example.bundle = Ok out /\
     lookup "depth" out = Some depth /\
     forall i j, item depth [i; j; 0%nat] = F32.zero) /\
  ~ returns_nan_depth (ext := Example.empty_ext)
      (Example.seathru_model Example.empty_ext) Example.bundle 2 2.
Proof.
  destruct (@seathru_depth_is_raw Example.empty_ext
           (Example.seathru_model Example.empty_ext) Example.bundle
           (Example.camera_of Example.empty_ext
              (Example.seathru_model Example.empty_ext))
           (Example.results_of Example.empty_ext
              (Example.seathru_model Example.empty_ext))
           3 2 2 Example.attenuate_net Example.backscatter_net
           (unsqueeze0 Example.frame_image) (unsqueeze0 Example.frame_image)
           (mkTensor [1; 3; 2; 2]%nat (fun _ => Example.quarter)) 3 3)
    as (out & depth & Hout & Hl & Hraw);
    [ran | ran | run | run | run | run | reflexivity | reflexivity
    | reflexivity | reflexivity | reflexivity | lia | lia | lia | lia | run |].
  split; [run|]; split; [intros i j _ _; reflexivity|]; split.
  - exists out, depth; split; [exact Hout|]; split; [exact Hl|].
    intros i j; rewrite Hraw; reflexivity.
  - intros (out' & depth' & Hout' & Hl' & Hnan).
    assert (out' = out) by congruence; subst out'.
    assert (depth' = depth) by congruence; subst depth'.
    destruct (Hnan 0%nat 0%nat ltac:(lia) ltac:(lia)) as [Hn _].
    rewrite Hraw in Hn; discriminate Hn.
Qed.

Lemma render_visibility_filter_witness :
  exists rr,
    @render Example.ext
      (Example.camera_of Example.ext (Example.clean_model Example.ext))
      Example.field PipelineParams_init (of_list []) (SFone 53 1024) None
    = Ok rr /\
    radii rr = [3; 0]%Z /\
    visibility_filter rr = map (fun r => (0 <? r)%Z) [3; 0]%Z /\
    visibility_is_positive_radius [3; 0]%Z (visibility_filter rr).
Proof.
  eapply (@render_visibility_filter Example.ext).
  - reflexivity.
  - reflexivity.
Defined.

(** ** Claims about the constructor *)

Lemma ne_literal_None_spec (x : option string) :
  ne_literal_None x = true <-> x <> Some "None".
Proof.
  destruct x as [s|]; simpl.
  - destruct (String.eqb_spec s "None") as [->|Hne]; simpl; split;
      try congruence; intros _ H; inversion H; contradiction.
  - split; [discriminate | reflexivity].
Qed.

Lemma load_seathru_log {ext : External} (bsp atp : option string) :
  In (EvTorchLoad atp) (fst (load_seathru bsp atp)).
Proof.
  unfold load_seathru.
  destruct (torch_load atp) as [sd|e]; [|simpl; auto].
  destruct (AttenuateNet_load sd) as [a|e]; simpl; auto.
Qed.

(** C10: compositing is enabled if and only if both path arguments
    differ from the literal string "None".  A path left at Python's None
    is not that string: provided the other path is not "None" either,
    compositing is enabled and the constructor starts loading a model. *)
Theorem seathru_enabled_iff_not_literal_None
  {ext : External} cfg mp li ot bsp atp gm :
  Model_init cfg mp li = Ok gm ->
  compositing_decided_by_literal_None atp bsp
    (fst (__init__ cfg mp li ot bsp atp))
    (snd (__init__ cfg mp li ot bsp atp)).
Proof.
  intros Hsuper.
  assert (Hflag : ne_literal_None atp && ne_literal_None bsp = true
                  <-> atp <> Some "None" /\ bsp <> Some "None").
  { rewrite andb_true_iff, !ne_literal_None_spec; reflexivity. }
  assert (Hlog : atp <> Some "None" /\ bsp <> Some "None"
                 <-> In (EvTorchLoad atp) (fst (__init__ cfg mp li ot bsp atp))).
  { rewrite <- Hflag; unfold __init__; rewrite Hsuper.
    destruct (ne_literal_None atp && ne_literal_None bsp).
    - pose proof (load_seathru_log bsp atp) as Hin.
      destruct (load_seathru bsp atp) as [log r]; simpl in *; tauto.
    - simpl; split; [discriminate | tauto]. }
  assert (Hpair : forall self,
             snd (__init__ cfg mp li ot bsp atp) = Ok self ->
             __init__ cfg mp li ot bsp atp
             = (fst (__init__ cfg mp li ot bsp atp), Ok self)).
  { intros self <-; apply surjective_pairing. }
  unfold compositing_decided_by_literal_None.
  split; [exact Hlog|]; split; [|split; [|split]].
  - intros self Hself.
    rewrite (init_flag _ _ _ _ _ _ _ _ (Hpair self Hself)); exact Hflag.
  - intros self Hself Hboth.
    destruct (init_models _ _ _ _ _ _ _ _ (Hpair self Hself))
      as [(_ & Ha & Hb)|(Hf & _)]; [split; assumption|].
    rewrite (init_flag _ _ _ _ _ _ _ _ (Hpair self Hself)) in Hf.
    apply Hflag in Hboth; congruence.
  - intros -> Hb; apply Hlog; split; [discriminate | exact Hb].
  - intros -> Ha; apply Hlog; split; [exact Ha | discriminate].
Qed.

Lemma seathru_enabled_iff_not_literal_None_witness :
  compositing_decided_by_literal_None (ext := Example.ext) None None
    (fst (Example.construct Example.ext None None))
    (snd (Example.construct Example.ext None None)).
Proof.
  apply (@seathru_enabled_iff_not_literal_None Example.ext Example.cfg
           (Some "output/scene") (-1)%Z None None None Example.field).
  reflexivity.
Defined.

(** ** The colour source of [render] *)







(** Features with more coefficients than the declared degree has: the
    view would span two of the transposed dimensions and is refused. *)
Lemma shs_view_refuses_spanning_view :
  shs_view_of ExampleFrames.wide_field = Raise RuntimeError.
Proof.
  reflexivity.
Qed.



(** ** C7: field of view and focal length *)

(** C7: for a positive focal length [f] and a positive pixel dimension
    [d], going to the field of view and back returns [f]. *)
Theorem fov2focal_focal2fov (f d : Rdefinitions.R) :
  (0 < f)%R -> (0 < d)%R ->
  GraphicsUtils.fov2focal (GraphicsUtils.focal2fov f d) d = f.
Proof.
  intros Hf Hd; unfold GraphicsUtils.fov2focal, GraphicsUtils.focal2fov.
  replace (2 * atan (d / (2 * f)) / 2)%R with (atan (d / (2 * f))) by field.
  rewrite tan_atan; field; lra.
Qed.

Lemma fov2focal_focal2fov_witness :
  (0 < 1)%R /\ (0 < 2)%R /\
  GraphicsUtils.fov2focal (GraphicsUtils.focal2fov 1 2) 2 = 1%R.
Proof.
  split; [lra|]; split; [lra|].
  apply (fov2focal_focal2fov 1 2); lra.
Defined.

(** ** Claims about the camera conversion *)

(** C1: [ns2gs_camera] appends the row 0 0 0 1 to the camera-to-world
    transform, multiplies the orientation transform from the left if
    one is configured, negates columns 1 and 2 of the first three rows
    and nothing else, has [numpy.linalg.inv] invert the result, and
    returns as R the transpose of the upper-left 3x3 block of the
    inverse and as T its last column. *)
Theorem ns2gs_camera_conversion {ext : External} self ns_camera :
  shape (camera_to_worlds ns_camera) = [3; 4]%nat ->
  (forall o, orientation_transform self = Some o -> shape o = [4; 4]%nat) ->
  camera_conversion_spec self ns_camera.
Proof.
  intros Hs Ho; unfold camera_conversion_spec.
  assert (H0 : exists M0,
             torch_concatenate0 (camera_to_worlds ns_camera)
               (of_rows [map F32.of_Z [0; 0; 0; 1]%Z]) = Ok M0 /\
             shape M0 = [4; 4]%nat /\
             (forall i j, (i < 3)%nat ->
                item M0 [i; j] = item (camera_to_worlds ns_camera) [i; j]) /\
             (forall j, item M0 [3%nat; j]
                        = nth j (map F32.of_Z [0; 0; 0; 1]%Z) F32.zero)).
  { unfold torch_concatenate0; rewrite Hs; cbn.
    eexists; split; [reflexivity|]; split; [reflexivity|]; split.
    - intros i j Hi; cbn [item hd].
      destruct (Nat.leb_spec i 2); [reflexivity | lia].
    - intros j; reflexivity. }
  destruct H0 as (M0 & HM0 & Hs0 & Hrows & Hlast).
  assert (H1 : exists M1,
             match orientation_transform self with
             | Some o => torch_matmul o M0
             | None => Ok M0
             end = Ok M1 /\
             shape M1 = [4; 4]%nat /\
             match orientation_transform self with
             | None => M1 = M0
             | Some o =>
                 torch_matmul o M0 = Ok M1 /\ shape M1 = [4; 4]%nat /\
                 forall i j,
                   item M1 [i; j] =
                   sum_f32 (map (fun l => F32.mul (item o [i; l]) (item M0 [l; j]))
                                (seq 0 4))
             end).
  { destruct (orientation_transform self) as [o|].
    - unfold torch_matmul; rewrite (Ho o eq_refl), Hs0; cbn [Nat.eqb].
      eexists; split; [reflexivity|]; split; [reflexivity|].
      split; [reflexivity|]; split; reflexivity.
    - exists M0; auto. }
  destruct H1 as (M1 & HM1 & Hs1 & Hspec1).
  assert (H2 : exists M2,
             imul_block 0 3 1 3 F32.minus_one M1 = Ok M2 /\
             shape M2 = [4; 4]%nat /\
             (forall i j, (i < 3)%nat -> j = 1%nat \/ j = 2%nat ->
                item M2 [i; j] = F32.mul (item M1 [i; j]) F32.minus_one) /\
             (forall i j, (3 <= i)%nat \/ j = 0%nat \/ (3 <= j)%nat ->
                item M2 [i; j] = item M1 [i; j])).
  { unfold imul_block; rewrite Hs1; cbn [length].
    change (Nat.ltb 2 2) with false; cbv iota.
    eexists; split; [reflexivity|]; split; [reflexivity|]; split.
    - intros i j Hi Hj; cbn [item nth Nat.leb].
      destruct (Nat.ltb_spec i 3); [|lia].
      destruct Hj as [-> | ->]; reflexivity.
    - intros i j Hij; cbn [item nth].
      change (Nat.leb 0 i) with true.
      destruct (Nat.ltb_spec i 3); destruct (Nat.leb_spec 1 j);
        destruct (Nat.ltb_spec j 3); cbn [andb]; try reflexivity; lia. }
  destruct H2 as (M2 & HM2 & Hs2 & Hneg & Hkeep).
  assert (Hcorr : corrected_c2w self ns_camera = Ok M2).
  { unfold corrected_c2w; rewrite HM0; cbn [bind]; rewrite HM1; exact HM2. }
  exists M0, M1, M2.
  split; [exact HM0|]; split; [exact Hs0|]; split; [exact Hrows|].
  split; [exact Hlast|]; split; [exact Hspec1|]; split; [exact Hcorr|].
  split; [exact Hs2|]; split.
  { intros i j Hi Hj; split; [now apply Hneg|].
    intros Hv; rewrite Hneg by assumption; now apply mul_minus_one. }
  split; [exact Hkeep|].
  rewrite ns2gs_camera_corrected, Hcorr; cbn [bind].
  rewrite (np_linalg_inv_square_spec M2 4 Hs2).
  destruct (umath_linalg_inv (to_rows M2)) as [rows|]; cbn [bind];
    [|split; reflexivity].
  eexists; eexists; split; [reflexivity|].
  split; [reflexivity|]; split; [reflexivity|].
  unfold slice_column, slice_block, np_transpose; cbn.
  split; [reflexivity|]; split; [reflexivity|]; split; [reflexivity|].
  split; reflexivity.
Qed.

Lemma ns2gs_camera_conversion_witness :
  camera_conversion_spec (ext := Example.ext)
    (Example.oriented_model Example.ext) Example.pose /\
  exists cam,
    @ns2gs_camera Example.ext (Example.oriented_model Example.ext)
      Example.pose = Ok cam /\
    matrix_is (to_rows (R cam)) [[0; -1; 0]; [1; 0; 0]; [0; 0; -1]]%Z = true /\
    row_is (map (fun i => item (T cam) [i]) [0; 1; 2]%nat) [-2; 3; 4]%Z = true /\
    exists M2 w2c product,
      corrected_c2w (Example.oriented_model Example.ext) Example.pose = Ok M2 /\
      @np_linalg_inv Example.ext M2 = Ok w2c /\
      torch_matmul w2c M2 = Ok product /\
      matrix_is (to_rows product)
        [[1; 0; 0; 0]; [0; 1; 0; 0]; [0; 0; 1; 0]; [0; 0; 0; 1]]%Z = true.
Proof.
  split.
  - apply (@ns2gs_camera_conversion Example.ext
             (Example.oriented_model Example.ext) Example.pose).
    + reflexivity.
    + intros o H; vm_compute in H; injection H as <-; reflexivity.
  - exists (Example.camera_of Example.ext (Example.oriented_model Example.ext)).
    split; [unfold Example.camera_of; ran|].
    split; [run|]; split; [run|].
    pose (M2 := Example.unwrap (scalar F32.zero)
                  (corrected_c2w (Example.oriented_model Example.ext)
                     Example.pose)).
    pose (w2c := Example.unwrap (scalar F32.zero)
                   (@np_linalg_inv Example.ext M2)).
    exists M2, w2c, (Example.unwrap (scalar F32.zero) (torch_matmul w2c M2)).
    split; [ran|]; split; [ran|]; split; [ran | run].
Defined.

(** The conversion has no path to a DegenerateCameraError. *)
Lemma ns2gs_camera_never_DegenerateCameraError
  {ext : External} self ns_camera :
  ns2gs_camera self ns_camera <> Raise DegenerateCameraError.
Proof.
  rewrite ns2gs_camera_corrected.
  destruct (corrected_c2w self ns_camera) as [M|e] eqn:Hcorr; cbn [bind].
  - destruct (np_linalg_inv M) as [w2c|e] eqn:Einv; cbn [bind].
    + unfold slice_column.
      destruct (Nat.ltb 3 _); cbn [bind]; discriminate.
    + pose proof (np_linalg_inv_raises M e Einv) as ->; discriminate.
  - destruct (corrected_c2w_raises self ns_camera e Hcorr) as [-> | ->];
      discriminate.
Qed.




(** Non-finite entries are not checked either: a NaN in the pose comes
    back as NaN in R. *)
Lemma nan_pose_propagates :
  exists cam,
    @ns2gs_camera Example.ext (Example.clean_model Example.ext)
      Example.nan_pose = Ok cam /\
    item (R cam) [1; 1]%nat = S754_nan.
Proof.
  exists (Example.unwrap Example.blank_camera
            (@ns2gs_camera Example.ext (Example.clean_model Example.ext)
               Example.nan_pose)).
  split; [ran | run].
Qed.

(** * Further properties *)

(** ** Lists of results *)

Lemma comprehension_Ok {A B : Type} (f : A -> result B) xs ys :
  comprehension f xs = Ok ys <-> Forall2 (fun x y => f x = Ok y) xs ys.
Proof.
  revert ys; induction xs as [|x xs IH]; intros ys; simpl.
  - split; [intros H; inversion H; constructor | intros H; inversion H; reflexivity].
  - split.
    + intros H.
      apply bind_Ok_inv in H as (y & Hy & H).
      apply bind_Ok_inv in H as (ys' & Hys & H).
      inversion H; subst; constructor; [exact Hy | now apply IH].
    + intros H; inversion H as [|x' y xs' ys' Hy Hys]; subst.
      rewrite Hy; cbn [bind].
      apply IH in Hys; rewrite Hys; reflexivity.
Qed.

Lemma comprehension_Raise {A B : Type} (f : A -> result B) xs e :
  comprehension f xs = Raise e -> Exists (fun x => f x = Raise e) xs.
Proof.
  induction xs as [|x xs IH]; simpl; [discriminate|].
  intros H; apply bind_Raise_inv in H as [H|(y & _ & H)].
  - now left.
  - right; apply IH.
    apply bind_Raise_inv in H as [H|(ys & _ & H)]; [exact H | discriminate].
Qed.

Lemma comprehension_fails {A B : Type} (f : A -> result B) xs :
  Exists (fun x => forall y, f x <> Ok y) xs ->
  exists e, comprehension f xs = Raise e.
Proof.
  induction 1 as [x xs Hx|x xs _ IH]; simpl.
  - destruct (f x) as [y|e]; [now destruct (Hx y) | now exists e].
  - destruct (f x) as [y|e]; cbn [bind]; [|now exists e].
    destruct IH as [e ->]; now exists e.
Qed.

(** ** [max] *)

Lemma fold_max_ge (rest : list Z) (x : Z) :
  (x <= fold_left Z.max rest x)%Z /\
  Forall (fun y => (y <= fold_left Z.max rest x)%Z) rest.
Proof.
  revert x; induction rest as [|y rest IH]; intros x; simpl.
  - split; [lia | constructor].
  - destruct (IH (Z.max x y)) as [H1 H2]; split; [lia|].
    constructor; [lia | exact H2].
Qed.

Lemma fold_max_in (rest : list Z) (x : Z) :
  In (fold_left Z.max rest x) (x :: rest).
Proof.
  revert x; induction rest as [|y rest IH]; intros x; simpl; [now left|].
  destruct (IH (Z.max x y)) as [H|H]; [|right; now right].
  rewrite <- H; destruct (Z.max_spec x y) as [[_ ->]|[_ ->]];
    [right; now left | now left].
Qed.

(** [max] returns an element that no other exceeds, and needs one. *)
Lemma py_max_spec (xs : list Z) (m : Z) :
  py_max xs = Ok m <->
  xs <> [] /\ In m xs /\ Forall (fun x => (x <= m)%Z) xs.
Proof.
  destruct xs as [|x rest]; simpl.
  - split; [discriminate | intros [H _]; now destruct H].
  - pose proof (fold_max_in rest x) as Hin.
    destruct (fold_max_ge rest x) as [Hx Hrest].
    split.
    + intros H; inversion H; subst.
      split; [discriminate|]; split; [exact Hin|].
      constructor; assumption.
    + intros (_ & Hm & Hub); f_equal.
      apply Z.le_antisymm.
      * rewrite Forall_forall in Hub; now apply Hub.
      * destruct Hm as [<-|Hm]; [exact Hx|].
        rewrite Forall_forall in Hrest; now apply Hrest.
Qed.

(** ** [split] and the last segment *)

Lemma split_on_nonempty (sep : ascii) (s : string) : split_on sep s <> [].
Proof.
  destruct s as [|c r]; simpl; [discriminate|].
  destruct (Ascii.eqb c sep); [discriminate|].
  destruct (split_on sep r); discriminate.
Qed.

Lemma split_on_app (sep : ascii) (p s : string) :
  split_on sep (p ++ String sep s) = split_on sep p ++ split_on sep s.
Proof.
  induction p as [|c p IH]; simpl.
  - now rewrite Ascii.eqb_refl.
  - destruct (Ascii.eqb c sep); [now rewrite IH|].
    rewrite IH.
    pose proof (split_on_nonempty sep p) as Hne.
    destruct (split_on sep p) as [|h t]; [now destruct Hne | reflexivity].
Qed.

Lemma split_on_no_sep (sep : ascii) (s : string) :
  string_forall (fun c => negb (Ascii.eqb c sep)) s = true ->
  split_on sep s = [s].
Proof.
  induction s as [|c r IH]; simpl; [reflexivity|].
  intros H; apply andb_prop in H as [Hc Hr].
  apply negb_true_iff in Hc; rewrite Hc, (IH Hr); reflexivity.
Qed.

Lemma last_app_nonempty (xs ys : list string) (d : string) :
  ys <> [] -> last (xs ++ ys) d = last ys d.
Proof.
  intros Hne; induction xs as [|x xs IH]; simpl; [reflexivity|].
  destruct (xs ++ ys) eqn:E; [|exact IH].
  apply app_eq_nil in E as [_ E]; now destruct Hne.
Qed.

(** Only the text after the last separator is kept. *)
Lemma last_segment (p s : string) :
  string_forall (fun c => negb (Ascii.eqb c "_")) s = true ->
  last_item (split_on "_" (p ++ String "_" s)) = s.
Proof.
  intros Hs; unfold last_item.
  rewrite split_on_app, last_app_nonempty by apply split_on_nonempty.
  now rewrite (split_on_no_sep _ _ Hs).
Qed.

(** ** [int] and [str] *)

Lemma string_forall_impl (p q : ascii -> bool) (s : string) :
  (forall c, p c = true -> q c = true) ->
  string_forall p s = true -> string_forall q s = true.
Proof.
  intros Hpq; induction s as [|c r IH]; simpl; [reflexivity|].
  intros H; apply andb_prop in H as [Hc Hr].
  now rewrite (Hpq c Hc), (IH Hr).
Qed.

Lemma digit_not_space (c : ascii) : is_digit c = true -> is_space c = false.
Proof.
  unfold is_digit, is_space; intros H.
  apply andb_prop in H as [H1 H2].
  apply Nat.leb_le in H1; apply Nat.leb_le in H2.
  destruct (Nat.leb_spec 9 (nat_of_ascii c));
    destruct (Nat.leb_spec (nat_of_ascii c) 13);
    destruct (Nat.eqb_spec (nat_of_ascii c) 32);
    destruct (Nat.eqb_spec (nat_of_ascii c) 133);
    destruct (Nat.eqb_spec (nat_of_ascii c) 160);
    cbn [andb orb]; try reflexivity; lia.
Qed.

Lemma digit_not_char (c x : ascii) :
  is_digit x = false -> is_digit c = true -> Ascii.eqb c x = false.
Proof.
  intros Hx Hc; destruct (Ascii.eqb_spec c x) as [->|]; congruence.
Qed.

Lemma digits_of_uint (d : Decimal.uint) :
  string_forall is_digit (DecimalString.NilEmpty.string_of_uint d) = true.
Proof.
  induction d; simpl; try reflexivity; exact IHd.
Qed.

Lemma lstrip_no_space (s : string) :
  string_forall (fun c => negb (is_space c)) s = true -> lstrip s = s.
Proof.
  destruct s as [|c r]; simpl; [reflexivity|].
  intros H; apply andb_prop in H as [Hc _].
  apply negb_true_iff in Hc; now rewrite Hc.
Qed.

Lemma rstrip_no_space (s : string) :
  string_forall (fun c => negb (is_space c)) s = true -> rstrip s = s.
Proof.
  induction s as [|c r IH]; simpl; [reflexivity|].
  intros H; apply andb_prop in H as [Hc Hr].
  apply negb_true_iff in Hc; rewrite (IH Hr), Hc.
  destruct r; reflexivity.
Qed.

Lemma strip_no_space (s : string) :
  string_forall (fun c => negb (is_space c)) s = true -> strip s = s.
Proof.
  intros H; unfold strip; now rewrite (lstrip_no_space s H), rstrip_no_space.
Qed.

Lemma digits_no_space (s : string) :
  string_forall is_digit s = true ->
  string_forall (fun c => negb (is_space c)) s = true.
Proof.
  apply string_forall_impl; intros c Hc.
  now rewrite (digit_not_space c Hc).
Qed.

Lemma digits_no_underscore (s : string) :
  string_forall is_digit s = true ->
  string_forall (fun c => negb (Ascii.eqb c "_")) s = true.
Proof.
  apply string_forall_impl; intros c Hc.
  now rewrite (digit_not_char c "_" eq_refl Hc).
Qed.

Lemma ungroup_digits (s : string) :
  string_forall is_digit s = true -> ungroup s true = Some s.
Proof.
  induction s as [|c r IH]; simpl; [reflexivity|].
  intros H; apply andb_prop in H as [Hc Hr].
  now rewrite Hc, (IH Hr).
Qed.

(** Digits parse to the number they spell. *)
Lemma py_int_digits (c : ascii) (r : string) (d : Decimal.uint) :
  string_forall is_digit (String c r) = true ->
  DecimalString.NilEmpty.uint_of_string (String c r) = Some d ->
  py_int (String c r) = Ok (Z.of_N (N.of_uint d)).
Proof.
  intros Hs Hd; unfold py_int.
  rewrite (strip_no_space _ (digits_no_space _ Hs)).
  pose proof Hs as Hs'; simpl in Hs'; apply andb_prop in Hs' as [Hc Hr].
  rewrite (digit_not_char c "-" eq_refl Hc), (digit_not_char c "+" eq_refl Hc).
  cbn [ungroup]; rewrite Hc, (ungroup_digits r Hr); cbn [option_map].
  now rewrite Hd.
Qed.

Lemma py_int_minus_digits (c : ascii) (r : string) (d : Decimal.uint) :
  string_forall is_digit (String c r) = true ->
  DecimalString.NilEmpty.uint_of_string (String c r) = Some d ->
  py_int (String "-" (String c r)) = Ok (- Z.of_N (N.of_uint d))%Z.
Proof.
  intros Hs Hd; unfold py_int.
  assert (Hns : string_forall (fun c => negb (is_space c))
                  (String "-" (String c r)) = true).
  { change (string_forall (fun c => negb (is_space c)) (String c r) = true).
    now apply digits_no_space. }
  rewrite (strip_no_space _ Hns).
  change (Ascii.eqb "-" "-") with true; cbv iota.
  pose proof Hs as Hs'; simpl in Hs'; apply andb_prop in Hs' as [Hc Hr].
  cbn [ungroup]; rewrite Hc, (ungroup_digits r Hr); cbn [option_map].
  now rewrite Hd.
Qed.

Lemma string_of_pos_digits (p : positive) :
  exists c r,
    DecimalString.NilZero.string_of_uint (Pos.to_uint p) = String c r /\
    string_forall is_digit (String c r) = true /\
    DecimalString.NilEmpty.uint_of_string (String c r) = Some (Pos.to_uint p).
Proof.
  pose proof (DecimalPos.Unsigned.to_uint_nonnil p) as Hnn.
  pose proof (digits_of_uint (Pos.to_uint p)) as Hd.
  pose proof (DecimalString.NilEmpty.usu (Pos.to_uint p)) as Hu.
  assert (E : DecimalString.NilZero.string_of_uint (Pos.to_uint p)
              = DecimalString.NilEmpty.string_of_uint (Pos.to_uint p))
    by (destruct (Pos.to_uint p); [now destruct Hnn | reflexivity ..]).
  rewrite E.
  destruct (DecimalString.NilEmpty.string_of_uint (Pos.to_uint p))
    as [|c r] eqn:Es.
  - destruct (Pos.to_uint p); try discriminate; now destruct Hnn.
  - exists c, r; auto.
Qed.

(** [int(str(n)) == n] for every integer. *)
Lemma py_int_str (z : Z) : py_int (py_str_int z) = Ok z.
Proof.
  destruct z as [|p|p]; unfold py_str_int; cbn [Z.to_int
    DecimalString.NilZero.string_of_int].
  - reflexivity.
  - destruct (string_of_pos_digits p) as (c & r & -> & Hd & Hu).
    rewrite (py_int_digits c r _ Hd Hu).
    unfold N.of_uint; now rewrite DecimalPos.Unsigned.of_to.
  - destruct (string_of_pos_digits p) as (c & r & -> & Hd & Hu).
    rewrite (py_int_minus_digits c r _ Hd Hu).
    unfold N.of_uint; now rewrite DecimalPos.Unsigned.of_to.
Qed.

(** [str] of an integer is made of digits and the minus sign. *)
Lemma py_str_int_no_char (x : ascii) (z : Z) :
  is_digit x = false -> Ascii.eqb "-" x = false ->
  string_forall (fun c => negb (Ascii.eqb c x)) (py_str_int z) = true.
Proof.
  intros Hx Hm.
  assert (Hd : forall s, string_forall is_digit s = true ->
                 string_forall (fun c => negb (Ascii.eqb c x)) s = true).
  { intros s; apply string_forall_impl; intros c Hc.
    now rewrite (digit_not_char c x Hx Hc). }
  destruct z as [|p|p]; unfold py_str_int; cbn [Z.to_int
    DecimalString.NilZero.string_of_int].
  - now apply Hd.
  - destruct (string_of_pos_digits p) as (c & r & -> & Hp & _).
    now apply Hd.
  - destruct (string_of_pos_digits p) as (c & r & -> & Hp & _).
    cbn [string_forall]; rewrite Hm; cbn [negb andb].
    exact (Hd (String c r) Hp).
Qed.

Lemma py_str_int_no_underscore (z : Z) :
  string_forall (fun c => negb (Ascii.eqb c "_")) (py_str_int z) = true.
Proof.
  now apply py_str_int_no_char.
Qed.

(** [int] raises nothing but [ValueError]. *)
Lemma py_int_raises (s : string) e : py_int s = Raise e -> e = ValueError.
Proof.
  unfold py_int.
  destruct (match strip s with
            | String c r =>
                if Ascii.eqb c "-" then (true, r)
                else if Ascii.eqb c "+" then (false, r) else (false, strip s)
            | EmptyString => (false, strip s)
            end) as [negative body].
  destruct (ungroup body false) as [digits|]; [|intros H; now inversion H].
  destruct (DecimalString.NilEmpty.uint_of_string digits);
    intros H; now inversion H.
Qed.

(** A directory name [p_n] is read as the integer [n]. *)
Lemma iteration_of_name (p : string) (n : Z) :
  py_int (last_item (split_on "_" (p ++ String "_" (py_str_int n)))) = Ok n.
Proof.
  rewrite last_segment by apply py_str_int_no_underscore.
  apply py_int_str.
Qed.

(** ** [search_for_max_iteration] *)

Lemma search_unfold {storage : Storage} (folder : string) names :
  os_listdir folder = Ok names ->
  search_for_max_iteration folder
  = ([IoListdir folder],
     saved_iters <- comprehension iteration_of_fname names ;;
     py_max saved_iters).
Proof.
  intros H.
  unfold search_for_max_iteration, io_call, io_lift, io_bind, iteration_of_fname.
  rewrite H.
  destruct (comprehension _ names) as [iters|e]; [|reflexivity].
  cbn [bind]; destruct (py_max iters); reflexivity.
Qed.

(** X1: the search lists the folder once and does nothing else; it
    returns [m] exactly when every entry of the folder reads as an
    integer, [m] is one of these integers and none of them is larger. *)
Theorem search_for_max_iteration_spec
  {storage : Storage} (folder : string) (names : list string) (m : Z) :
  os_listdir folder = Ok names ->
  fst (search_for_max_iteration folder) = [IoListdir folder] /\
  (search_for_max_iteration folder = ([IoListdir folder], Ok m) <->
   exists iters,
     Forall2 (fun name i => iteration_of_fname name = Ok i) names iters /\
     In m iters /\ Forall (fun i => (i <= m)%Z) iters).
Proof.
  intros Hls; rewrite (search_unfold folder names Hls); cbn [fst].
  split; [reflexivity|]; split.
  - intros H; injection H as H.
    apply bind_Ok_inv in H as (iters & Hc & Hm).
    exists iters; split; [now apply comprehension_Ok|].
    now apply py_max_spec in Hm as (_ & Hin & Hub).
  - intros (iters & Hf & Hin & Hub); f_equal.
    apply comprehension_Ok in Hf; rewrite Hf; cbn [bind].
    apply py_max_spec; split; [|split; assumption].
    intros ->; exact Hin.
Qed.

Lemma search_for_max_iteration_spec_witness :
  @search_for_max_iteration ExampleStorage.storage "output/scene/point_cloud"
  = ([IoListdir "output/scene/point_cloud"], Ok 30000%Z).
Proof.
  apply (@search_for_max_iteration_spec ExampleStorage.storage
           "output/scene/point_cloud"
           ["iteration_7000"; "iteration_30000"; "iteration_15000"] 30000%Z
           eq_refl).
  exists [7000; 30000; 15000]%Z; split.
  - repeat constructor.
  - split; [right; left; reflexivity|].
    repeat constructor; discriminate.
Defined.

Lemma saved_iters_fail (names : list string) :
  names = [] \/
  Exists (fun name => forall i, iteration_of_fname name <> Ok i) names ->
  (saved_iters <- comprehension iteration_of_fname names ;;
   py_max saved_iters) = Raise ValueError.
Proof.
  intros [->|Hbad]; [reflexivity|].
  destruct (comprehension_fails iteration_of_fname names Hbad) as [e He].
  rewrite He; cbn [bind]; f_equal.
  apply comprehension_Raise in He.
  apply Exists_exists in He as (name & _ & He).
  now apply py_int_raises in He.
Qed.

(** X2: the search fails in three ways and in no other.  When the
    folder cannot be listed, the error of [os.listdir] is the error of
    the call.  When the folder is empty, or has an entry whose text
    after the last underscore is not an integer, the call ends in
    ValueError: no entry is skipped.  In each case the listing is all
    that was done. *)
Theorem search_for_max_iteration_fails
  {storage : Storage} (folder : string) :
  (forall e, os_listdir folder = Raise e ->
     search_for_max_iteration folder = ([IoListdir folder], Raise e)) /\
  (forall names, os_listdir folder = Ok names ->
     names = [] \/
     Exists (fun name => forall i, iteration_of_fname name <> Ok i) names ->
     search_for_max_iteration folder = ([IoListdir folder], Raise ValueError)) /\
  (forall names e, os_listdir folder = Ok names ->
     snd (search_for_max_iteration folder) = Raise e ->
     e = ValueError /\
     (names = [] \/
      Exists (fun name => forall i, iteration_of_fname name <> Ok i) names)).
Proof.
  split; [|split].
  - intros e He.
    unfold search_for_max_iteration, io_call, io_bind; now rewrite He.
  - intros names Hls Hbad.
    rewrite (search_unfold folder names Hls).
    now rewrite (saved_iters_fail names Hbad).
  - intros names e Hls.
    rewrite (search_unfold folder names Hls); cbn [snd]; intros H.
    apply bind_Raise_inv in H as [H|(iters & Hc & H)].
    + pose proof H as Hc.
      apply comprehension_Raise in H.
      apply Exists_exists in H as (name & Hin & He).
      cbv beta in He.
      split; [exact (py_int_raises _ _ He)|].
      right; apply Exists_exists; exists name; split; [exact Hin|].
      intros i Hi; rewrite Hi in He; discriminate He.
    + destruct iters as [|x rest]; [|discriminate].
      inversion H; subst; split; [reflexivity|]; left.
      destruct names as [|n names]; [reflexivity|].
      cbn [comprehension] in Hc.
      apply bind_Ok_inv in Hc as (y & _ & Hc).
      apply bind_Ok_inv in Hc as (ys & _ & Hc); discriminate.
Qed.

Lemma search_for_max_iteration_fails_witness :
  @search_for_max_iteration ExampleStorage.storage "output/stray/point_cloud"
  = ([IoListdir "output/stray/point_cloud"], Raise ValueError)
  /\
  @search_for_max_iteration ExampleStorage.storage "output/empty/point_cloud"
  = ([IoListdir "output/empty/point_cloud"], Raise ValueError)
  /\
  @search_for_max_iteration ExampleStorage.storage "output/missing/point_cloud"
  = ([IoListdir "output/missing/point_cloud"],
     Raise (ExternalError "FileNotFoundError")).
Proof.
  split; [|split].
  - apply (proj1 (proj2 (@search_for_max_iteration_fails ExampleStorage.storage
                           "output/stray/point_cloud"))
             ["iteration_7000"; ".DS_Store"]).
    + reflexivity.
    + right; right; left; intros i H; vm_compute in H; discriminate H.
  - apply (proj1 (proj2 (@search_for_max_iteration_fails ExampleStorage.storage
                           "output/empty/point_cloud")) []).
    + reflexivity.
    + left; reflexivity.
  - apply (proj1 (@search_for_max_iteration_fails ExampleStorage.storage
                    "output/missing/point_cloud")).
    reflexivity.
Defined.

Lemma comprehension_entries (entries : list (string * Z)) :
  comprehension iteration_of_fname (map entry_name entries)
  = Ok (map snd entries).
Proof.
  induction entries as [|[p n] entries IH]; simpl; [reflexivity|].
  unfold iteration_of_fname at 1, entry_name at 1; cbn [fst snd].
  rewrite iteration_of_name; cbn [bind]; now rewrite IH.
Qed.

Lemma saved_iters_latest (entries : list (string * Z)) :
  entries <> [] ->
  exists n,
    In n (map snd entries) /\
    Forall (fun k => (k <= n)%Z) (map snd entries) /\
    (saved_iters <- comprehension iteration_of_fname (map entry_name entries) ;;
     py_max saved_iters) = Ok n.
Proof.
  intros Hne; rewrite comprehension_entries; cbn [bind].
  destruct (py_max (map snd entries)) as [n|e] eqn:E.
  - exists n; apply py_max_spec in E as (_ & Hin & Hub); auto.
  - destruct entries; [now destruct Hne | discriminate].
Qed.

(** X3: in a folder whose entries are named prefix_n, whatever the
    prefixes, the search returns the largest [n]: what [str] wrote,
    [int] reads back. *)
Theorem search_for_max_iteration_finds_latest
  {storage : Storage} (folder : string) (entries : list (string * Z)) :
  os_listdir folder = Ok (map entry_name entries) ->
  entries <> [] ->
  exists n,
    In n (map snd entries) /\
    Forall (fun k => (k <= n)%Z) (map snd entries) /\
    search_for_max_iteration folder = ([IoListdir folder], Ok n).
Proof.
  intros Hls Hne.
  destruct (saved_iters_latest entries Hne) as (n & Hin & Hub & Hn).
  exists n; split; [exact Hin|]; split; [exact Hub|].
  now rewrite (search_unfold folder _ Hls), Hn.
Qed.

Lemma search_for_max_iteration_finds_latest_witness :
  exists n,
    In n [7000; 30000; 15000]%Z /\
    Forall (fun k => (k <= n)%Z) [7000; 30000; 15000]%Z /\
    @search_for_max_iteration ExampleStorage.storage "output/scene/point_cloud"
    = ([IoListdir "output/scene/point_cloud"], Ok n).
Proof.
  apply (@search_for_max_iteration_finds_latest ExampleStorage.storage
           "output/scene/point_cloud"
           [("iteration", 7000%Z); ("iteration", 30000%Z); ("iteration", 15000%Z)]).
  - reflexivity.
  - discriminate.
Defined.

(** ** [os.path.join] *)

Lemma ends_with_slash_app (a b : string) :
  b <> EmptyString -> ends_with_slash (a ++ b) = ends_with_slash b.
Proof.
  intros Hb; induction a as [|c a IH]; [reflexivity|].
  cbn [append ends_with_slash]; rewrite IH.
  destruct (a ++ b)%string eqn:E; [|reflexivity].
  destruct a; [now destruct Hb | discriminate].
Qed.

Lemma ends_with_slash_no_slash (s : string) :
  string_forall (fun c => negb (Ascii.eqb c "/")) s = true ->
  ends_with_slash s = false.
Proof.
  induction s as [|c r IH]; [reflexivity|].
  cbn [string_forall ends_with_slash]; intros H.
  apply andb_prop in H as [Hc Hr]; apply negb_true_iff in Hc.
  destruct r; [exact Hc | now apply IH].
Qed.

Lemma append_assoc (a b c : string) :
  ((a ++ b) ++ c = a ++ (b ++ c))%string.
Proof.
  induction a as [|x a IH]; simpl; [reflexivity | now rewrite IH].
Qed.

Lemma append_nonempty (a b : string) :
  b <> EmptyString -> (a ++ b)%string <> EmptyString.
Proof.
  destruct a; [trivial | discriminate].
Qed.

Lemma join_step_plain (path b : string) :
  path <> EmptyString -> ends_with_slash path = false ->
  starts_with_slash b = false ->
  join_step path b = (path ++ "/" ++ b)%string.
Proof.
  intros Hne Hs Hb; unfold join_step; rewrite Hb.
  destruct path; [now destruct Hne | now rewrite Hs].
Qed.

Lemma ends_with_slash_str_int (n : Z) :
  ends_with_slash ("/iteration_" ++ py_str_int n) = false.
Proof.
  pose proof (ends_with_slash_no_slash (py_str_int n)
                (py_str_int_no_char "/" n eq_refl eq_refl)) as H.
  cbn [append ends_with_slash].
  destruct (py_str_int n); [reflexivity | exact H].
Qed.

(** For a model path that is not empty and does not end in a slash, the
    three components are joined by single slashes. *)
Lemma iteration_path_plain (model_path : string) (n : Z) :
  model_path <> EmptyString -> ends_with_slash model_path = false ->
  iteration_path model_path n
  = (model_path ++ "/point_cloud/iteration_" ++ py_str_int n
       ++ "/point_cloud.ply")%string.
Proof.
  intros Hne Hs; unfold iteration_path; cbn [fold_left].
  rewrite (join_step_plain model_path "point_cloud" Hne Hs eq_refl).
  rewrite (join_step_plain _ ("iteration_" ++ py_str_int n)).
  - rewrite join_step_plain.
    + rewrite !append_assoc; reflexivity.
    + apply append_nonempty; discriminate.
    + rewrite ends_with_slash_app by discriminate.
      apply ends_with_slash_str_int.
    + reflexivity.
  - apply append_nonempty; discriminate.
  - rewrite ends_with_slash_app by discriminate; reflexivity.
  - reflexivity.
Qed.

(** ** [populate_modules] *)

Lemma populate_modules_settled {storage : Storage} config mp (n : Z) :
  (let '(log, r) :=
     ((_ <- io_emit (IoPrint ("Loading trained model at iteration "
                              ++ py_str_int n)) ;;
       path <- io_lift (os_path_join (Some mp)
                          ["point_cloud";
                           ("iteration_" ++ py_str_int n)%string;
                           "point_cloud.ply"]) ;;
       gaussian_model <-
         io_call (IoLoadPly path) (load_ply (cfg_sh_degree config) path) ;;
       io_lift (Ok (n, gaussian_model)))%io
      : IO (Z * GaussianSplattingField)) in
   (log, r))
  = ([loading_line n; IoLoadPly (iteration_path mp n)], loaded config mp n).
Proof.
  unfold io_emit, io_lift, io_call, io_bind, os_path_join, loaded,
    loading_line; fold (iteration_path mp n).
  destruct (load_ply (cfg_sh_degree config) (iteration_path mp n));
    reflexivity.
Qed.

(** X4: with an explicit iteration the folder is never listed; the file
    loaded is model_path/point_cloud/iteration_n/point_cloud.ply and the
    iteration is kept. *)
Theorem populate_modules_explicit
  {storage : Storage} config (model_path : string) (n : Z) :
  n <> (-1)%Z ->
  populate_modules config (Some model_path) n
  = ([loading_line n; IoLoadPly (iteration_path model_path n)],
     loaded config model_path n)
  /\
  (model_path <> EmptyString -> ends_with_slash model_path = false ->
   iteration_path model_path n
   = (model_path ++ "/point_cloud/iteration_" ++ py_str_int n
        ++ "/point_cloud.ply")%string).
Proof.
  intros Hn; split; [|apply iteration_path_plain].
  unfold populate_modules.
  destruct (Z.eqb_spec n (-1)) as [E|_]; [contradiction|].
  unfold io_lift at 1; unfold io_bind at 1; cbn [app].
  pose proof (populate_modules_settled config model_path n) as H.
  destruct (io_bind (io_emit _) _) as [log r]; exact H.
Qed.

Lemma populate_modules_explicit_witness :
  @populate_modules ExampleStorage.storage Example.cfg (Some "output/scene") 7000
  = ([loading_line 7000; IoLoadPly (iteration_path "output/scene" 7000)],
     @loaded ExampleStorage.storage Example.cfg "output/scene" 7000)
  /\
  iteration_path "output/scene" 7000
  = "output/scene/point_cloud/iteration_7000/point_cloud.ply".
Proof.
  destruct (@populate_modules_explicit ExampleStorage.storage Example.cfg
              "output/scene" 7000%Z ltac:(discriminate)) as [H1 H2].
  split; [exact H1|].
  rewrite H2; [reflexivity | discriminate | reflexivity].
Defined.

Lemma populate_modules_automatic {storage : Storage} config mp :
  populate_modules config (Some mp) (-1)
  = match search_for_max_iteration (join_step mp "point_cloud") with
    | (log, Ok n) =>
        (log ++ [loading_line n; IoLoadPly (iteration_path mp n)],
         loaded config mp n)
    | (log, Raise e) => (log, Raise e)
    end.
Proof.
  unfold populate_modules; change (Z.eqb (-1) (-1)) with true; cbv iota.
  unfold os_path_join at 1; cbn [fold_left].
  unfold io_lift at 1; unfold io_bind at 2; cbn [app].
  unfold io_bind at 1.
  destruct (search_for_max_iteration (join_step mp "point_cloud"))
    as [log [n|e]]; [|reflexivity].
  pose proof (populate_modules_settled config mp n) as H.
  destruct (io_bind (io_emit _) _) as [log' r].
  now inversion H.
Qed.

(** X5: with the iteration left at -1 and a point_cloud folder whose
    entries are named prefix_n, the largest n is selected: it is
    returned as the iteration and its file is the one loaded.  When the
    prefixes are all "iteration", the directory loaded from is one of
    the entries listed. *)
Theorem populate_modules_latest
  {storage : Storage} config (model_path : string)
  (entries : list (string * Z)) :
  os_listdir (join_step model_path "point_cloud")
    = Ok (map entry_name entries) ->
  entries <> [] ->
  exists n,
    In n (map snd entries) /\
    Forall (fun k => (k <= n)%Z) (map snd entries) /\
    populate_modules config (Some model_path) (-1)
    = ([IoListdir (join_step model_path "point_cloud");
        loading_line n;
        IoLoadPly (iteration_path model_path n)],
       loaded config model_path n) /\
    (Forall (fun pn => fst pn = "iteration") entries ->
     In ("iteration_" ++ py_str_int n)%string (map entry_name entries)).
Proof.
  intros Hls Hne.
  destruct (saved_iters_latest entries Hne) as (n & Hin & Hub & Hn).
  exists n; split; [exact Hin|]; split; [exact Hub|]; split.
  - now rewrite populate_modules_automatic, (search_unfold _ _ Hls), Hn.
  - intros Hcanon.
    apply in_map_iff in Hin as ([p k] & Hk & Hpk); cbn [snd] in Hk; subst k.
    apply in_map_iff; exists (p, n); split; [|exact Hpk].
    rewrite Forall_forall in Hcanon.
    specialize (Hcanon _ Hpk); cbn [fst] in Hcanon; subst p; reflexivity.
Qed.

Lemma populate_modules_latest_witness :
  exists n,
    In n [7000; 30000; 15000]%Z /\
    Forall (fun k => (k <= n)%Z) [7000; 30000; 15000]%Z /\
    @populate_modules ExampleStorage.storage Example.cfg
      (Some "output/scene") (-1)
    = ([IoListdir "output/scene/point_cloud";
        loading_line n;
        IoLoadPly (iteration_path "output/scene" n)],
       @loaded ExampleStorage.storage Example.cfg "output/scene" n) /\
    (Forall (fun pn => fst pn = "iteration")
       [("iteration", 7000%Z); ("iteration", 30000%Z); ("iteration", 15000%Z)] ->
     In ("iteration_" ++ py_str_int n)%string
        ["iteration_7000"; "iteration_30000"; "iteration_15000"]).
Proof.
  apply (@populate_modules_latest ExampleStorage.storage Example.cfg
           "output/scene"
           [("iteration", 7000%Z); ("iteration", 30000%Z); ("iteration", 15000%Z)]).
  - reflexivity.
  - discriminate.
Defined.

(** X6: a model path left at None makes [populate_modules] fail with
    the TypeError of [os.path.join], whatever the iteration.  With the
    iteration at -1 the first join raises and nothing has been done;
    with any other iteration the loading line is printed before the
    second join raises.  No folder is listed and no file is loaded. *)
Theorem populate_modules_without_model_path
  {storage : Storage} config (n : Z) :
  populate_modules config None n
  = (if Z.eqb n (-1) then [] else [loading_line n], Raise TypeError) /\
  Forall (fun ev => is_listing_event ev = false /\ is_loading_event ev = false)
         (fst (populate_modules config None n)).
Proof.
  unfold populate_modules.
  destruct (Z.eqb n (-1)).
  - split; [reflexivity | constructor].
  - split; [reflexivity|].
    cbn; constructor; [split; reflexivity | constructor].
Qed.

(** X7: with the iteration left at -1, an empty point_cloud folder, or
    one entry that does not end in an integer, makes [populate_modules]
    fail with ValueError after listing the folder; no file is loaded. *)
Theorem populate_modules_unreadable_folder
  {storage : Storage} config (model_path : string) (names : list string) :
  os_listdir (join_step model_path "point_cloud") = Ok names ->
  names = [] \/
  Exists (fun name => forall i, iteration_of_fname name <> Ok i) names ->
  populate_modules config (Some model_path) (-1)
  = ([IoListdir (join_step model_path "point_cloud")], Raise ValueError).
Proof.
  intros Hls Hbad.
  rewrite populate_modules_automatic, (search_unfold _ names Hls).
  now rewrite (saved_iters_fail names Hbad).
Qed.

Lemma populate_modules_unreadable_folder_witness :
  @populate_modules ExampleStorage.storage Example.cfg
    (Some "output/empty") (-1)
  = ([IoListdir "output/empty/point_cloud"], Raise ValueError)
  /\
  @populate_modules ExampleStorage.storage Example.cfg
    (Some "output/stray") (-1)
  = ([IoListdir "output/stray/point_cloud"], Raise ValueError).
Proof.
  split.
  - apply (@populate_modules_unreadable_folder ExampleStorage.storage
             Example.cfg "output/empty" []).
    + reflexivity.
    + left; reflexivity.
  - apply (@populate_modules_unreadable_folder ExampleStorage.storage
             Example.cfg "output/stray" ["iteration_7000"; ".DS_Store"]).
    + reflexivity.
    + right; right; left; intros i H; vm_compute in H; discriminate H.
Defined.

(** ** What a returned bundle tells about the call *)

Section BundleInversion.

Context {ext : External}.
Variables (self : GaussianSplatting) (bundle : RayBundle).

Lemma get_outputs_inv (out : Outputs) :
  get_outputs_for_camera_ray_bundle self bundle = Ok out ->
  exists cam rr m rgb depth,
    frame_steps self bundle cam rr m rgb depth /\
    ((do_seathru self = false /\ out = [("rgb", rgb); ("depth", depth)]) \/
     (do_seathru self = true /\
      exists direct attenuation_map backscatter od ob oa odr ou,
        compositing_steps self rr direct attenuation_map backscatter od ob oa odr ou /\
        out = [("rgb", rgb); ("depth", od); ("backscatter", ob);
               ("attenuation", oa); ("direct", odr);
               ("underwater_image", ou)])).
Proof.
  unfold get_outputs_for_camera_ray_bundle; intros H.
  apply bind_Ok_inv in H as (cam & Hcam & H).
  apply bind_Ok_inv in H as (rr & Hrr & H).
  apply bind_Ok_inv in H as (m & Hm & H).
  apply bind_Ok_inv in H as (rgb & Hrgb & H).
  apply bind_Ok_inv in H as (nd & Hnd & H).
  apply bind_Ok_inv in H as (depth & Hdepth & H).
  exists cam, rr, m, rgb, depth; split.
  { repeat (split; [assumption|]); exists nd; split; assumption. }
  destruct (do_seathru self); [right | left; split; [reflexivity|]].
  2:{ now inversion H. }
  split; [reflexivity|].
  apply bind_Ok_inv in H as (at_net & Hat & H).
  apply bind_Ok_inv in H as ([direct att] & Hatf & H).
  apply bind_Ok_inv in H as (bs_net & Hbs & H).
  apply bind_Ok_inv in H as (bsc & Hbsf & H).
  apply bind_Ok_inv in H as (sum & Hsum & H).
  apply bind_Ok_inv in H as (od & Hod & H).
  apply bind_Ok_inv in H as (ob & Hob & H).
  apply bind_Ok_inv in H as (oa & Hoa & H).
  apply bind_Ok_inv in H as (odr & Hodr & H).
  apply bind_Ok_inv in H as (ou & Hou & H).
  exists direct, att, bsc, od, ob, oa, odr, ou; split; [|now inversion H].
  unfold compositing_steps.
  destruct (at_model self) as [a|]; [|discriminate].
  destruct (bs_model self) as [b|]; [|discriminate].
  inversion Hat; inversion Hbs; subst.
  split; [exists at_net; auto|]; split; [exists bs_net; auto|].
  split; [exists sum; auto|]; auto.
Qed.

End BundleInversion.

(** X8: a returned bundle has exactly the keys rgb and depth when
    compositing is off and exactly the six keys when it is on; there is
    no bundle in between. *)
Theorem bundle_keys {ext : External} self bundle out :
  get_outputs_for_camera_ray_bundle self bundle = Ok out ->
  (do_seathru self = false /\ keys out = clean_keys) \/
  (do_seathru self = true /\ keys out = compositing_keys).
Proof.
  intros H.
  destruct (get_outputs_inv self bundle out H)
    as (cam & rr & m & rgb & depth & _ & [[Hoff ->]|[Hon Hc]]).
  - left; split; [exact Hoff | reflexivity].
  - destruct Hc as (d & a & b & od & ob & oa & odr & ou & _ & ->).
    right; split; [exact Hon | reflexivity].
Qed.

Lemma bundle_keys_witness :
  (do_seathru (Example.seathru_model Example.ext) = false /\
   keys (Example.unwrap []
           (@get_outputs_for_camera_ray_bundle Example.ext
              (Example.seathru_model Example.ext) Example.bundle))
   = clean_keys) \/
  (do_seathru (Example.seathru_model Example.ext) = true /\
   keys (Example.unwrap []
           (@get_outputs_for_camera_ray_bundle Example.ext
              (Example.seathru_model Example.ext) Example.bundle))
   = compositing_keys).
Proof.
  apply (@bundle_keys Example.ext (Example.seathru_model Example.ext)
           Example.bundle).
  ran.
Defined.

(** ** The range of the colour images *)

Lemma clamp_unit_interval (x : f32) :
  unit_interval_or_nan (F32.clamp F32.zero F32.one x).
Proof.
  unfold unit_interval_or_nan.
  destruct x as [s|s| |s m e].
  - right; destruct s; split; reflexivity.
  - right; destruct s; split; reflexivity.
  - left; reflexivity.
  - destruct s; [right; split; reflexivity|].
    unfold F32.clamp.
    replace (F32.max (S754_finite false m e) F32.zero)
      with (S754_finite false m e) by reflexivity.
    unfold F32.min.
    change (F32.is_nan (S754_finite false m e)) with false.
    change (F32.is_nan F32.one) with false; cbv iota.
    destruct (F32.ltb F32.one (S754_finite false m e)) eqn:E.
    + right; split; reflexivity.
    + right; split; [reflexivity | exact E].
Qed.

Lemma permute_item (dims : list nat) (t t' : Tensor) :
  permute dims t = Ok t' -> forall idx, exists idx', item t' idx = item t idx'.
Proof.
  unfold permute; destruct (is_permutation _ _); [|discriminate].
  intros H idx; inversion H; subst; cbn [item]; eexists; reflexivity.
Qed.

(** X9: every value of the rgb entry and of the underwater image of a
    returned bundle is NaN or lies between 0 and 1. *)
Theorem colour_entries_in_unit_interval
  {ext : External} self bundle out (key : string) (t : Tensor) :
  get_outputs_for_camera_ray_bundle self bundle = Ok out ->
  key = "rgb" \/ key = "underwater_image" ->
  lookup key out = Some t ->
  forall idx, unit_interval_or_nan (item t idx).
Proof.
  intros H Hkey Hl idx.
  destruct (get_outputs_inv self bundle out H)
    as (cam & rr & m & rgb & depth & Hf & Hmode).
  destruct Hf as (_ & _ & _ & Hrgb & _).
  assert (Hrange : forall idx', unit_interval_or_nan (item rgb idx')).
  { intros idx'.
    destruct (permute_item _ _ _ Hrgb idx') as (i & ->).
    apply clamp_unit_interval. }
  destruct Hmode as [[_ ->]|[_ Hc]].
  - destruct Hkey as [-> | ->]; cbn in Hl; [|discriminate].
    inversion Hl; subst; apply Hrange.
  - destruct Hc as (d & a & b & od & ob & oa & odr & ou & Hs & ->).
    destruct Hkey as [-> | ->]; cbn in Hl; inversion Hl; subst.
    + apply Hrange.
    + destruct Hs as (_ & _ & (sum & _ & Hou) & _).
      destruct (permute_item _ _ _ Hou idx) as (i & ->).
      apply clamp_unit_interval.
Qed.

Lemma colour_entries_in_unit_interval_witness :
  unit_interval_or_nan
    (item (Example.unwrap (scalar F32.zero)
             (match @get_outputs_for_camera_ray_bundle Example.ext
                      (Example.seathru_model Example.ext) Example.bundle with
              | Ok out =>
                  match lookup "underwater_image" out with
                  | Some t => Ok t
                  | None => Raise RuntimeError
                  end
              | Raise e => Raise e
              end)) [0; 1; 2]%nat).
Proof.
  apply (@colour_entries_in_unit_interval Example.ext
           (Example.seathru_model Example.ext) Example.bundle
           (Example.unwrap []
              (@get_outputs_for_camera_ray_bundle Example.ext
                 (Example.seathru_model Example.ext) Example.bundle))
           "underwater_image").
  - ran.
  - right; reflexivity.
  - reflexivity.
Defined.

(** ** Frames that cannot be normalized *)

Lemma torch_max_nan (t m : Tensor) (idx : list nat) :
  torch_max t = Ok m -> in_range (shape t) idx ->
  F32.is_nan (item t idx) = true -> item m [] = S754_nan.
Proof.
  intros Hm Hr Hn.
  destruct (F32.is_nan (item m [])) eqn:E.
  - destruct (item m []); try discriminate; reflexivity.
  - rewrite (torch_max_not_nan t m Hm E idx Hr) in Hn; discriminate.
Qed.

Lemma div_by_nan (x : f32) : F32.div x S754_nan = S754_nan.
Proof.
  destruct x; reflexivity.
Qed.

(** X10: with compositing off, one NaN pixel in the raw depth turns
    every pixel of the returned depth into NaN: the frame maximum is NaN
    and every pixel is divided by it. *)
Theorem nan_pixel_poisons_depth
  {ext : External} self bundle cam rr (C H W i0 j0 : nat) :
  ns2gs_camera self (camera bundle) = Ok cam ->
  render cam (gaussian_model self) (pipeline_params self)
         (of_list (map F32.of_Z (bg_color self)))
         (scaling_modifier_slider self) None = Ok rr ->
  shape (render_ rr) = [C; H; W] ->
  shape (rendered_depth rr) = [1%nat; H; W] ->
  do_seathru self = false ->
  (i0 < H)%nat -> (j0 < W)%nat ->
  F32.is_nan (item (rendered_depth rr) [0%nat; i0; j0]) = true ->
  returns_nan_depth self bundle H W.
Proof.
  intros Hcam Hrender Hi Hd Hoff Hi0 Hj0 Hnan.
  destruct (clean_outputs _ _ _ _ _ _ _ Hcam Hrender Hi Hd
              ltac:(lia) ltac:(lia) Hoff)
    as (m & rgb & depth & Hm & Hout & _ & Hds & Hdi).
  assert (Em : item m [] = S754_nan).
  { apply (torch_max_nan (rendered_depth rr) m [0%nat; i0; j0] Hm); [|exact Hnan].
    rewrite Hd; constructor; [lia|].
    constructor; [exact Hi0|]; constructor; [exact Hj0 | constructor]. }
  exists [("rgb", rgb); ("depth", depth)], depth.
  split; [exact Hout|]; split; [reflexivity|].
  intros i j Hlt Hlt'.
  rewrite Hdi, Em, div_by_nan by assumption; split; reflexivity.
Qed.

Lemma indices_zero (s : list nat) : In 0%nat s -> indices s = [].
Proof.
  induction s as [|d s IH]; intros Hin; [now destruct Hin|].
  cbn [indices].
  destruct Hin as [->|Hin]; [reflexivity|].
  rewrite (IH Hin).
  induction (seq 0 d) as [|i l IHl]; [reflexivity | exact IHl].
Qed.

(** X11: a frame with no pixels has no maximum: when the depth image
    has a dimension of size 0 the call fails with RuntimeError. *)
Theorem empty_frame_raises
  {ext : External} self bundle cam rr :
  ns2gs_camera self (camera bundle) = Ok cam ->
  render cam (gaussian_model self) (pipeline_params self)
         (of_list (map F32.of_Z (bg_color self)))
         (scaling_modifier_slider self) None = Ok rr ->
  In 0%nat (shape (rendered_depth rr)) ->
  get_outputs_for_camera_ray_bundle self bundle = Raise RuntimeError.
Proof.
  intros Hcam Hrender Hzero.
  unfold get_outputs_for_camera_ray_bundle.
  rewrite Hcam; cbn [bind]; rewrite Hrender; cbn [bind].
  unfold torch_max; now rewrite (indices_zero _ Hzero).
Qed.

(** ** Network outputs with a dimension of size 1 *)

Lemma permute_raises (dims : list nat) (t : Tensor) e :
  permute dims t = Raise e -> e = RuntimeError.
Proof.
  unfold permute; destruct (is_permutation _ _); [discriminate|].
  intros H; now inversion H.
Qed.

Lemma tensor_binop_raises (op : f32 -> f32 -> f32) (a b : Tensor) e :
  tensor_binop op a b = Raise e -> e = RuntimeError.
Proof.
  unfold tensor_binop; destruct (broadcast_shapes _ _); [discriminate|].
  intros H; now inversion H.
Qed.

Lemma permute_squeezed_rank (t t' : Tensor) :
  permute [1; 2; 0]%nat (squeeze t) = Ok t' -> squeezed_rank t = 3%nat.
Proof.
  apply permute_120_rank.
Qed.

(** X12: with compositing on, [squeeze()] drops every dimension of size
    1, not only the batch: when the backscatter, the attenuation map or
    the direct image keeps other than three dimensions (a frame one
    pixel high or wide, a single channel), the call fails with
    RuntimeError. *)
Theorem squeezed_output_raises
  {ext : External} self bundle cam rr (C H W : nat)
  at_net bs_net direct attenuation_map backscatter :
  ns2gs_camera self (camera bundle) = Ok cam ->
  render cam (gaussian_model self) (pipeline_params self)
         (of_list (map F32.of_Z (bg_color self)))
         (scaling_modifier_slider self) None = Ok rr ->
  shape (render_ rr) = [C; H; W] ->
  shape (rendered_depth rr) = [1%nat; H; W] ->
  (0 < H)%nat -> (0 < W)%nat ->
  do_seathru self = true ->
  at_model self = Some at_net ->
  bs_model self = Some bs_net ->
  at_forward at_net (unsqueeze0 (render_ rr)) (unsqueeze0 (rendered_depth rr))
    = Ok (direct, attenuation_map) ->
  bs_forward bs_net (unsqueeze0 (rendered_depth rr)) = Ok backscatter ->
  squeezed_rank backscatter <> 3%nat \/
  squeezed_rank attenuation_map <> 3%nat \/
  squeezed_rank direct <> 3%nat ->
  get_outputs_for_camera_ray_bundle self bundle = Raise RuntimeError.
Proof.
  intros Hcam Hrender Hi Hd HH HW Hon Hat Hbs Har Hbr Hrank.
  destruct (depth_frame_max rr H W Hd HH HW) as [m Hm].
  destruct (permute_120 (torch_clamp (render_ rr) F32.zero F32.one) C H W Hi)
    as (rgb & Hrgb & _).
  destruct (tensor_binop_scalar F32.div (rendered_depth rr) m
              (torch_max_shape _ _ Hm)) as (nd & Hnd & Hns & _).
  rewrite Hd in Hns.
  destruct (permute_120 nd _ _ _ Hns) as (nd' & Hnd' & _).
  destruct (permute_120 _ _ _ _ Hd) as (od & Hod & _).
  unfold get_outputs_for_camera_ray_bundle.
  rewrite Hcam; cbn [bind]; rewrite Hrender; cbn [bind].
  rewrite Hm; cbn [bind]; rewrite Hrgb; cbn [bind].
  fold tensor_div in Hnd; rewrite Hnd; cbn [bind]; rewrite Hnd'; cbn [bind].
  rewrite Hon, Hat; cbn [bind get_attr]; rewrite Har; cbn [bind].
  rewrite Hbs; cbn [bind get_attr]; rewrite Hbr; cbn [bind].
  destruct (tensor_add direct backscatter) as [sum|e] eqn:Hsum; cbn [bind].
  2:{ now rewrite (tensor_binop_raises _ _ _ _ Hsum). }
  rewrite Hod; cbn [bind].
  destruct (permute _ (squeeze backscatter)) as [ob|e] eqn:Hob; cbn [bind].
  2:{ now rewrite (permute_raises _ _ _ Hob). }
  destruct (permute _ (squeeze attenuation_map)) as [oa|e] eqn:Hoa; cbn [bind].
  2:{ now rewrite (permute_raises _ _ _ Hoa). }
  destruct (permute _ (squeeze direct)) as [odr|e] eqn:Hodr; cbn [bind].
  2:{ now rewrite (permute_raises _ _ _ Hodr). }
  apply permute_squeezed_rank in Hob, Hoa, Hodr.
  destruct Hrank as [Hr|[Hr|Hr]]; contradiction.
Qed.

Lemma nan_pixel_poisons_depth_witness :
  returns_nan_depth (ext := ExampleFrames.nan_ext)
    (Example.clean_model ExampleFrames.nan_ext) Example.bundle 2 2.
Proof.
  apply (@nan_pixel_poisons_depth ExampleFrames.nan_ext
           (Example.clean_model ExampleFrames.nan_ext) Example.bundle
           (Example.camera_of ExampleFrames.nan_ext
              (Example.clean_model ExampleFrames.nan_ext))
           (Example.results_of ExampleFrames.nan_ext
              (Example.clean_model ExampleFrames.nan_ext))
           3 2 2 0 0).
  - ran.
  - ran.
  - run.
  - run.
  - run.
  - lia.
  - lia.
  - run.
Defined.

Lemma empty_frame_raises_witness :
  @get_outputs_for_camera_ray_bundle ExampleFrames.empty_frame_ext
    (Example.clean_model ExampleFrames.empty_frame_ext) Example.bundle
  = Raise RuntimeError.
Proof.
  apply (@empty_frame_raises ExampleFrames.empty_frame_ext
           (Example.clean_model ExampleFrames.empty_frame_ext) Example.bundle
           (Example.camera_of ExampleFrames.empty_frame_ext
              (Example.clean_model ExampleFrames.empty_frame_ext))
           (Example.results_of ExampleFrames.empty_frame_ext
              (Example.clean_model ExampleFrames.empty_frame_ext))).
  - ran.
  - ran.
  - right; left; run.
Defined.

Lemma squeezed_output_raises_witness :
  @get_outputs_for_camera_ray_bundle ExampleFrames.flat_ext
    (Example.seathru_model ExampleFrames.flat_ext) Example.bundle
  = Raise RuntimeError.
Proof.
  apply (@squeezed_output_raises ExampleFrames.flat_ext
           (Example.seathru_model ExampleFrames.flat_ext) Example.bundle
           (Example.camera_of ExampleFrames.flat_ext
              (Example.seathru_model ExampleFrames.flat_ext))
           (Example.results_of ExampleFrames.flat_ext
              (Example.seathru_model ExampleFrames.flat_ext))
           3 1 2 Example.attenuate_net Example.backscatter_net
           (unsqueeze0 ExampleFrames.flat_image)
           (unsqueeze0 ExampleFrames.flat_image)
           (mkTensor [1; 3; 1; 2]%nat (fun _ => Example.quarter))).
  - ran.
  - ran.
  - run.
  - run.
  - lia.
  - lia.
  - run.
  - run.
  - run.
  - reflexivity.
  - reflexivity.
  - left; vm_compute; discriminate.
Defined.

(** ** What a constructed model renders with *)

Lemma init_fields {ext : External} cfg mp li ot bsp atp log self :
  __init__ cfg mp li ot bsp atp = (log, Ok self) ->
  pipeline_params self = PipelineParams_init /\
  config self = cfg /\
  orientation_transform self = ot /\
  bg_color self
  = (if String.eqb (background_color cfg) "black"
     then [0; 0; 0]%Z else [1; 1; 1]%Z).
Proof.
  unfold __init__.
  destruct (Model_init cfg mp li) as [gm|e]; [|intros H; inversion H].
  destruct (ne_literal_None atp && ne_literal_None bsp).
  - destruct (load_seathru bsp atp) as [log' [[a b]|e]]; simpl;
      intros H; inversion H; subst; simpl; auto.
  - intros H; inversion H; subst; simpl; auto.
Qed.

(** X13: a model built by the constructor never evaluates colours or
    covariances on the host: whatever the camera and the scaling
    modifier, the rasterizer is handed the raw harmonic coefficients,
    the scales and the rotations, and neither precomputed colours nor a
    precomputed covariance. *)
Theorem constructed_model_rasterizes_raw
  {ext : External} cfg mp li ot bsp atp log self cam sm :
  __init__ cfg mp li ot bsp atp = (log, Ok self) ->
  raster_args_of cam (gaussian_model self) (pipeline_params self) sm None
  = Ok (raw_raster_args (gaussian_model self)).
Proof.
  intros Hinit.
  destruct (init_fields _ _ _ _ _ _ _ _ Hinit) as (-> & _).
  reflexivity.
Qed.

Lemma constructed_model_rasterizes_raw_witness :
  @raster_args_of Example.ext
    (Example.camera_of Example.ext (Example.clean_model Example.ext))
    (gaussian_model (Example.clean_model Example.ext))
    (pipeline_params (Example.clean_model Example.ext))
    (SFone 53 1024) None
  = Ok (raw_raster_args (gaussian_model (Example.clean_model Example.ext))).
Proof.
  apply (@constructed_model_rasterizes_raw Example.ext
           Example.cfg (Some "output/scene") (-1)%Z None
           (Some "None") (Some "None") []).
  apply construct_clean_ok; run.
Defined.

(** X14: [render] hands the rasterizer either the scales and rotations
    or a precomputed covariance, never both and never neither; the
    covariance is computed with the scaling modifier, and its failure is
    the failure of the call. *)
Theorem render_covariance_source_selection
  {ext : External} cam pc pipe sm oc :
  covariance_source_policy cam pc pipe sm oc.
Proof.
  unfold covariance_source_policy, raster_args_of, render_covariance_source.
  split; [|split].
  - intros -> args H; cbn [bind] in H.
    apply bind_Ok_inv in H as ([s c] & _ & H).
    inversion H; subst; cbn; auto.
  - intros -> args H.
    apply bind_Ok_inv in H as ([[sc ro] cv] & Hcov & H).
    apply bind_Ok_inv in Hcov as (c & Hc & Hcov).
    inversion Hcov; subst.
    apply bind_Ok_inv in H as ([s c'] & _ & H).
    inversion H; subst; cbn.
    split; [reflexivity|]; split; [reflexivity|]; exists c; auto.
  - intros -> e He; now rewrite He.
Qed.

(** X15: the background handed to the rasterizer is black exactly for
    the colour name "black"; any other name, also a misspelt one, gives
    white. *)
Theorem background_is_black_or_white
  {ext : External} cfg mp li ot bsp atp log self :
  __init__ cfg mp li ot bsp atp = (log, Ok self) ->
  (background_color cfg = "black" -> background_is self F32.zero) /\
  (background_color cfg <> "black" -> background_is self F32.one).
Proof.
  intros Hinit.
  destruct (init_fields _ _ _ _ _ _ _ _ Hinit) as (_ & _ & _ & Hbg).
  unfold background_is; rewrite Hbg.
  destruct (String.eqb_spec (background_color cfg) "black") as [E|E].
  - split; [intros _ | intros H; now destruct H].
    split; [reflexivity|].
    intros [|[|[|k]]] Hk; try reflexivity; lia.
  - split; [intros H; now destruct E | intros _].
    split; [reflexivity|].
    intros [|[|[|k]]] Hk; try reflexivity; lia.
Qed.

Lemma background_is_black_or_white_witness :
  background_is (Example.clean_model Example.ext) F32.zero.
Proof.
  apply (@background_is_black_or_white Example.ext
           Example.cfg (Some "output/scene") (-1)%Z None
           (Some "None") (Some "None") []).
  - apply construct_clean_ok; run.
  - reflexivity.
Defined.

(** ** The order of the loads *)

(** X16: when compositing is enabled the attenuation weights are read
    first and the backscatter weights only after the attenuation
    network stands; a failure of the first read ends the construction
    before the backscatter file is touched.  A model that is returned
    holds the network of the attenuation path in [at_model] and that of
    the backscatter path in [bs_model]. *)
Theorem init_loads_attenuation_first
  {ext : External} cfg mp li ot bsp atp gm :
  Model_init cfg mp li = Ok gm ->
  atp <> Some "None" -> bsp <> Some "None" ->
  (forall e, torch_load atp = Raise e ->
     __init__ cfg mp li ot bsp atp
     = (loading_banner bsp atp ++ [EvTorchLoad atp], Raise e)) /\
  (forall self, snd (__init__ cfg mp li ot bsp atp) = Ok self ->
     fst (__init__ cfg mp li ot bsp atp)
     = loading_banner bsp atp ++ [EvTorchLoad atp; EvTorchLoad bsp] /\
     exists sd_at at_net sd_bs bs_net,
       torch_load atp = Ok sd_at /\ AttenuateNet_load sd_at = Ok at_net /\
       torch_load bsp = Ok sd_bs /\ BackscatterNet_load sd_bs = Ok bs_net /\
       at_model self = Some at_net /\ bs_model self = Some bs_net).
Proof.
  intros Hsuper Ha Hb.
  apply ne_literal_None_spec in Ha; apply ne_literal_None_spec in Hb.
  unfold __init__; rewrite Hsuper, Ha, Hb; cbn [andb].
  unfold load_seathru, loading_banner; split.
  - intros e He; rewrite He; reflexivity.
  - intros self.
    destruct (torch_load atp) as [sd_at|e]; [|discriminate].
    destruct (AttenuateNet_load sd_at) as [at_net|e] eqn:Hat; [|discriminate].
    cbn [fst snd].
    destruct (torch_load bsp) as [sd_bs|e]; [|discriminate]; cbn [bind].
    destruct (BackscatterNet_load sd_bs) as [bs_net|e] eqn:Hbs;
      [|discriminate].
    cbn [bind]; intros H; inversion H; subst; cbn.
    split; [reflexivity|].
    exists sd_at, at_net, sd_bs, bs_net; auto 10.
Qed.

Lemma init_loads_attenuation_first_witness :
  Example.construct Example.ext (Some "bs.pth") None
  = (loading_banner (Some "bs.pth") None ++ [EvTorchLoad None],
     Raise AttributeError).
Proof.
  apply (@init_loads_attenuation_first Example.ext Example.cfg
           (Some "output/scene") (-1)%Z None (Some "bs.pth") None
           Example.field).
  - reflexivity.
  - discriminate.
  - discriminate.
  - reflexivity.
Defined.

(** ** The shapes of a converted camera *)

Lemma slice_column_shape r j a t :
  slice_column r j a = Ok t ->
  shape t = [Nat.min r (nth 0 (shape a) 0%nat)] /\
  (j < nth 1 (shape a) 0%nat)%nat.
Proof.
  unfold slice_column.
  destruct (Nat.ltb_spec j (nth 1 (shape a) 0%nat)) as [Hlt|Hge];
    intros H; inversion H.
  split; [reflexivity | assumption].
Qed.

Lemma np_linalg_inv_square {ext : External} a b :
  np_linalg_inv a = Ok b ->
  exists n, shape a = [n; n] /\ shape b = [n; n].
Proof.
  unfold np_linalg_inv.
  destruct (shape a) as [|n [|m [|]]]; try discriminate.
  destruct (Nat.eqb_spec n m) as [<-|]; [|discriminate].
  destruct (umath_linalg_inv _); intros H; inversion H.
  exists n; split; reflexivity.
Qed.

Lemma imul_block_shape r0 r1 c0 c1 k t t' :
  imul_block r0 r1 c0 c1 k t = Ok t' -> shape t' = shape t.
Proof.
  unfold imul_block; destruct (Nat.ltb _ _); intros H; inversion H.
  reflexivity.
Qed.

Lemma ns2gs_camera_inv {ext : External} self ns_camera cam :
  ns2gs_camera self ns_camera = Ok cam ->
  exists c2w w2c n T',
    corrected_c2w self ns_camera = Ok c2w /\
    np_linalg_inv c2w = Ok w2c /\
    shape c2w = [n; n] /\ shape w2c = [n; n] /\ (3 < n)%nat /\
    slice_column 3 3 w2c = Ok T' /\
    cam = {| R := np_transpose (slice_block 3 3 w2c);
             T := T';
             cam_width := width ns_camera;
             cam_height := height ns_camera;
             FoVx := focal2fov (fx ns_camera) (width ns_camera);
             FoVy := focal2fov (fy ns_camera) (height ns_camera) |}.
Proof.
  rewrite ns2gs_camera_corrected; intros H.
  apply bind_Ok_inv in H as (c2w & Hc & H).
  apply bind_Ok_inv in H as (w2c & Hinv & H).
  apply bind_Ok_inv in H as (T' & HT & H).
  destruct (np_linalg_inv_square _ _ Hinv) as (n & Hs & Hs').
  destruct (slice_column_shape _ _ _ _ HT) as (_ & Hn).
  rewrite Hs' in Hn; cbn in Hn.
  exists c2w, w2c, n, T'; inversion H; auto 10.
Qed.

(** X17: every camera that [ns2gs_camera] returns has a 3 x 3 rotation
    and a translation of three entries, and the image size of the
    nerfstudio camera, whatever the orientation transform. *)
Theorem ns2gs_camera_result_shapes
  {ext : External} self ns_camera cam :
  ns2gs_camera self ns_camera = Ok cam ->
  shape (R cam) = [3; 3]%nat /\ shape (T cam) = [3%nat] /\
  cam_width cam = width ns_camera /\ cam_height cam = height ns_camera.
Proof.
  intros H.
  destruct (ns2gs_camera_inv _ _ _ H)
    as (c2w & w2c & n & T' & _ & _ & _ & Hs & Hn & HT & ->).
  destruct (slice_column_shape _ _ _ _ HT) as (HsT & _).
  cbn [R T cam_width cam_height]; unfold np_transpose, slice_block.
  cbn [shape]; rewrite HsT, Hs; cbn [nth].
  replace (Nat.min 3 n) with 3%nat by lia.
  auto.
Qed.

Lemma ns2gs_camera_result_shapes_witness :
  shape (R (Example.camera_of Example.ext
              (Example.oriented_model Example.ext))) = [3; 3]%nat /\
  shape (T (Example.camera_of Example.ext
              (Example.oriented_model Example.ext))) = [3%nat] /\
  cam_width (Example.camera_of Example.ext
               (Example.oriented_model Example.ext)) = width Example.pose /\
  cam_height (Example.camera_of Example.ext
                (Example.oriented_model Example.ext)) = height Example.pose.
Proof.
  apply (@ns2gs_camera_result_shapes Example.ext
           (Example.oriented_model Example.ext) Example.pose).
  unfold Example.camera_of; ran.
Defined.

Lemma concatenate_row_shape a c :
  torch_concatenate0 a (of_rows [map F32.of_Z [0; 0; 0; 1]%Z]) = Ok c ->
  (shape a = [0%nat] /\ shape c = [1; 4]%nat) \/
  (exists k, shape a = [k; 4]%nat /\ shape c = [S k; 4]%nat).
Proof.
  unfold torch_concatenate0.
  change (shape (of_rows [map F32.of_Z [0; 0; 0; 1]%Z])) with [1; 4]%nat.
  destruct (shape a) as [|n1 r1] eqn:Hs; [discriminate|].
  destruct n1 as [|n1], r1 as [|d r1]; cbn.
  - intros H; inversion H; left; auto.
  - destruct d as [|[|[|[|[|d]]]]], r1 as [|? ?]; cbn; try discriminate.
    intros H; inversion H; right; exists 0%nat; auto.
  - discriminate.
  - destruct d as [|[|[|[|[|d]]]]], r1 as [|? ?]; cbn; try discriminate.
    intros H; inversion H; right; exists (S n1); cbn.
    split; [reflexivity|]; do 2 f_equal; lia.
Qed.

(** X18: without an orientation transform the conversion succeeds only
    for a pose of three rows and four columns.  A pose of four columns
    and any other number of rows, such as a 4 x 4 matrix that already
    has its homogeneous row, still gets the row appended and is refused
    by the inversion with [LinAlgError]. *)
Theorem ns2gs_camera_pose_must_be_3x4
  {ext : External} self ns_camera :
  orientation_transform self = None ->
  (forall cam, ns2gs_camera self ns_camera = Ok cam ->
     shape (camera_to_worlds ns_camera) = [3; 4]%nat) /\
  (forall k, shape (camera_to_worlds ns_camera) = [k; 4]%nat -> k <> 3%nat ->
     ns2gs_camera self ns_camera = Raise LinAlgError).
Proof.
  intros Hnone; split.
  - intros cam H.
    destruct (ns2gs_camera_inv _ _ _ H)
      as (c2w & w2c & n & T' & Hc & _ & Hs & _ & Hn & _).
    unfold corrected_c2w in Hc; rewrite Hnone in Hc.
    apply bind_Ok_inv in Hc as (c0 & Hcat & Hc).
    cbn [bind] in Hc.
    apply imul_block_shape in Hc; rewrite Hs in Hc.
    destruct (concatenate_row_shape _ _ Hcat)
      as [(_ & Hs0) | (k & Ha & Hs0)];
      rewrite Hs0 in Hc; inversion Hc as [[Hn1 Hn4]].
    + lia.
    + rewrite Ha; do 2 f_equal; lia.
  - intros k Hk Hne.
    rewrite ns2gs_camera_corrected; unfold corrected_c2w; rewrite Hnone.
    assert (exists c,
              torch_concatenate0 (camera_to_worlds ns_camera)
                (of_rows [map F32.of_Z [0; 0; 0; 1]%Z]) = Ok c /\
              shape c = [(k + 1)%nat; 4%nat]) as (c & -> & Hc).
    { unfold torch_concatenate0; rewrite Hk.
      change (shape (of_rows [map F32.of_Z [0; 0; 0; 1]%Z])) with [1; 4]%nat.
      destruct k; cbn; eexists; split; reflexivity. }
    cbn [bind]; unfold imul_block; rewrite Hc.
    cbn [length Nat.ltb Nat.leb bind].
    unfold np_linalg_inv; cbn [shape].
    destruct (Nat.eqb_spec (k + 1) 4) as [E|E]; [lia | reflexivity].
Qed.

Lemma ns2gs_camera_pose_must_be_3x4_witness :
  @ns2gs_camera Example.ext (Example.clean_model Example.ext)
    ExampleFrames.homogeneous_pose = Raise LinAlgError.
Proof.
  refine (proj2 (@ns2gs_camera_pose_must_be_3x4 Example.ext
                   (Example.clean_model Example.ext)
                   ExampleFrames.homogeneous_pose _) 4%nat _ _).
  - reflexivity.
  - reflexivity.
  - discriminate.
Defined.
